(** * pipecat: input transport, output gate and AWS Transcribe start-up

    A shallow embedding of three pieces of the repository:

    - [BaseInputTransport] (src/pipecat/transports/base_input.py): frame
      dispatch, start/stop, the interruption handlers and the audio input
      loop with its VAD and end-of-turn analysis;
    - [OutputGate] (examples/foundational/22b-natural-conversation-proposal.py):
      the buffering processor released by a notifier;
    - [AWSTranscribeSTTService] (src/pipecat/services/aws/stt.py): the
      constructor's sample-rate validation and the connection retry loop
      of [start].

    Python methods mutate [self] and call into collaborators (the next
    processor, analyzers, the websocket library).  Both are made explicit:
    a method is a computation in a small monad that threads the object's
    state, records every call that leaves the object as an event of a
    trace, and may raise. *)

From Stdlib Require Import List ZArith Bool Lia String.
Import ListNotations.
Local Open Scope Z_scope.

Set Implicit Arguments.

(** ** Python values *)

Definition bytes := list Byte.byte.

(** Truthiness of an [Optional[int]] and Python's [a or b] on it: [None]
    and [0] are falsy, so [a or b] is [b] in both cases. *)
Definition py_or_int (a : option Z) (b : Z) : Z :=
  match a with
  | Some x => if x =? 0 then b else x
  | None => b
  end.

(** [x in xs] for a list of ints. *)
Fixpoint py_in (x : Z) (xs : list Z) : bool :=
  match xs with
  | [] => false
  | y :: ys => (x =? y) || py_in x ys
  end.

(** ** The method monad: state of [self], trace of outgoing calls, exceptions *)

Inductive Exn : Type :=
| RuntimeError (msg : string)
| ValueError (msg : string)
| OtherException (msg : string).

(** Result of a call.  [OutOfFuel] only arises from the bounded unrolling
    of a [while] loop; straight-line code never produces it. *)
Inductive Outcome (A : Type) : Type :=
| Returned (a : A)
| Raised (e : Exn)
| OutOfFuel.

Arguments Returned {A} a.
Arguments Raised {A} e.
Arguments OutOfFuel {A}.

Section Monad.

Variables S E : Type.

Definition M (A : Type) : Type := S -> Outcome A * S * list E.

Definition ret {A} (a : A) : M A := fun s => (Returned a, s, []).

Definition bind {A B} (c : M A) (k : A -> M B) : M B :=
  fun s =>
    match c s with
    | (Returned a, s1, t1) =>
        match k a s1 with
        | (r, s2, t2) => (r, s2, t1 ++ t2)
        end
    | (Raised e, s1, t1) => (Raised e, s1, t1)
    | (OutOfFuel, s1, t1) => (OutOfFuel, s1, t1)
    end.

Definition get : M S := fun s => (Returned s, s, []).
Definition gets {A} (f : S -> A) : M A := fun s => (Returned (f s), s, []).
Definition put (s : S) : M unit := fun _ => (Returned tt, s, []).
Definition modify (f : S -> S) : M unit := fun s => (Returned tt, f s, []).
Definition emit (e : E) : M unit := fun s => (Returned tt, s, [e]).
Definition raise {A} (e : Exn) : M A := fun s => (Raised e, s, []).
Definition out_of_fuel {A} : M A := fun s => (OutOfFuel, s, []).

(** [try: c except Exception as e: h e] *)
Definition try_except {A} (c : M A) (h : Exn -> M A) : M A :=
  fun s =>
    match c s with
    | (Raised e, s1, t1) =>
        match h e s1 with
        | (r, s2, t2) => (r, s2, t1 ++ t2)
        end
    | r => r
    end.

(** [try: c finally: f] *)
Definition try_finally {A} (c : M A) (f : M unit) : M A :=
  fun s =>
    match c s with
    | (r, s1, t1) =>
        match f s1 with
        | (Returned _, s2, t2) => (r, s2, t1 ++ t2)
        | (Raised e, s2, t2) => (Raised e, s2, t1 ++ t2)
        | (OutOfFuel, s2, t2) => (OutOfFuel, s2, t1 ++ t2)
        end
    end.

(** [if b: c] with no [else]. *)
Definition when (b : bool) (c : M unit) : M unit :=
  if b then c else ret tt.

(** [for x in xs: body x] *)
Fixpoint for_each {A} (xs : list A) (body : A -> M unit) : M unit :=
  match xs with
  | [] => ret tt
  | x :: rest => bind (body x) (fun _ => for_each rest body)
  end.

Definition result_of {A} (r : Outcome A * S * list E) : Outcome A := fst (fst r).
Definition state_of {A} (r : Outcome A * S * list E) : S := snd (fst r).
Definition trace_of {A} (r : Outcome A * S * list E) : list E := snd r.

End Monad.

Arguments ret {S E A} a.
Arguments get {S E}.
Arguments gets {S E A} f.
Arguments put {S E} s.
Arguments modify {S E} f.
Arguments emit {S E} e.
Arguments raise {S E A} e.
Arguments out_of_fuel {S E A}.
Arguments when {S E} b c.

Declare Scope method_scope.
Delimit Scope method_scope with method.
Notation "x <- c ;; k" := (bind c (fun x => k))
  (at level 61, c at next level, right associativity) : method_scope.
Notation "c ;; k" := (bind c (fun _ => k))
  (at level 61, right associativity) : method_scope.
Local Open Scope method_scope.

(** ** Frames (pipecat.frames.frames) *)

Inductive FrameDirection : Type := DOWNSTREAM | UPSTREAM.

Definition FrameDirection_eqb (a b : FrameDirection) : bool :=
  match a, b with
  | DOWNSTREAM, DOWNSTREAM | UPSTREAM, UPSTREAM => true
  | _, _ => false
  end.

Inductive VADState : Type := QUIET | STARTING | SPEAKING | STOPPING.

Definition VADState_eqb (a b : VADState) : bool :=
  match a, b with
  | QUIET, QUIET | STARTING, STARTING | SPEAKING, SPEAKING | STOPPING, STOPPING => true
  | _, _ => false
  end.

Inductive EndOfTurnState : Type := COMPLETE | INCOMPLETE.

Definition EndOfTurnState_eqb (a b : EndOfTurnState) : bool :=
  match a, b with
  | COMPLETE, COMPLETE | INCOMPLETE, INCOMPLETE => true
  | _, _ => false
  end.

(** The frame classes the modelled code names, each with the fields that
    code reads; [OtherFrame] stands for an instance of any other class. *)
Inductive Frame : Type :=
| StartFrame (audio_in_sample_rate : Z)
| EndFrame
| CancelFrame
| BotInterruptionFrame
| EmulateUserStartedSpeakingFrame
| EmulateUserStoppedSpeakingFrame
| StartInterruptionFrame
| StopInterruptionFrame
| UserStartedSpeakingFrame (emulated : bool)
| UserStoppedSpeakingFrame (emulated : bool)
| UserEndOfTurnFrame
| VADParamsUpdateFrame (params : nat)
| FilterUpdateSettingsFrame (settings : nat)
| InputAudioRawFrame (audio : bytes)
| FunctionCallInProgressFrame (tool_call_id : nat)
| FunctionCallResultFrame (tool_call_id : nat)
| TextFrame (text : string)
| OtherFrame (class_id : nat) (id : nat).

Inductive Coroutine : Type := audio_task_handler | gate_task_handler | receive_loop.

(** A task created by [FrameProcessor.create_task], named by the coroutine it runs. *)
Definition Task := Coroutine.

(** Modelled from the spec: the class hierarchy of pipecat.frames.frames is
    not among the sources.  Section 3 of the specification lists the System
    frames (Start, Cancel, StartInterruption, StopInterruption, the
    emulated-speech markers); the user-speaking and bot-interruption frames
    are dispatched as system frames by the code.  EndFrame and the two
    parameter-update frames are handled by [BaseInputTransport.process_frame]
    after its [isinstance(frame, SystemFrame)] test, under the comment
    "Control frames", so they are not system frames here.  The theorems below
    hold for every hierarchy; this one instantiates them. *)
Definition frames_SystemFrame (f : Frame) : bool :=
  match f with
  | StartFrame _ | CancelFrame | BotInterruptionFrame
  | EmulateUserStartedSpeakingFrame | EmulateUserStoppedSpeakingFrame
  | StartInterruptionFrame | StopInterruptionFrame
  | UserStartedSpeakingFrame _ | UserStoppedSpeakingFrame _ => true
  | _ => false
  end.

(** ** OutputGate *)

Module OutputGate.

Record t : Type := mk {
  _gate_open : bool;
  _frames_buffer : list (Frame * FrameDirection);
  _gate_task : option Task
}.

Inductive Event : Type :=
| super_process_frame (f : Frame) (d : FrameDirection)
| push_frame (f : Frame) (d : FrameDirection)
| create_task (c : Coroutine)
| cancel_task (k : Task).

Definition set_gate_open (b : bool) (g : t) : t :=
  mk b (_frames_buffer g) (_gate_task g).
Definition set_frames_buffer (l : list (Frame * FrameDirection)) (g : t) : t :=
  mk (_gate_open g) l (_gate_task g).
Definition set_gate_task (k : option Task) (g : t) : t :=
  mk (_gate_open g) (_frames_buffer g) k.

(** [__init__(self, *, notifier, start_open=False)] *)
Definition init (start_open : bool) : t := mk start_open [] None.

Definition close_gate : M t Event unit := modify (set_gate_open false).
Definition open_gate : M t Event unit := modify (set_gate_open true).

Definition _start : M t Event unit :=
  modify (set_frames_buffer []) ;;
  k <- gets _gate_task ;;
  match k with
  | None => emit (create_task gate_task_handler) ;;
            modify (set_gate_task (Some gate_task_handler))
  | Some _ => ret tt
  end.

Definition _stop : M t Event unit :=
  k <- gets _gate_task ;;
  match k with
  | Some task => emit (cancel_task task) ;; modify (set_gate_task None)
  | None => ret tt
  end.

Definition is_StartFrame (f : Frame) : bool :=
  match f with StartFrame _ => true | _ => false end.
Definition is_EndFrame_or_CancelFrame (f : Frame) : bool :=
  match f with EndFrame | CancelFrame => true | _ => false end.
Definition is_StartInterruptionFrame (f : Frame) : bool :=
  match f with StartInterruptionFrame => true | _ => false end.
Definition is_function_call_frame (f : Frame) : bool :=
  match f with
  | FunctionCallInProgressFrame _ | FunctionCallResultFrame _ => true
  | _ => false
  end.

Section Hierarchy.

(** [isinstance(frame, SystemFrame)] *)
Variable isinstance_SystemFrame : Frame -> bool.

Definition process_frame (frame : Frame) (direction : FrameDirection) : M t Event unit :=
  emit (super_process_frame frame direction) ;;
  (* We must not block system frames. *)
  if isinstance_SystemFrame frame then
    when (is_StartFrame frame) _start ;;
    when (is_EndFrame_or_CancelFrame frame) _stop ;;
    when (is_StartInterruptionFrame frame)
         (modify (set_frames_buffer []) ;; close_gate) ;;
    emit (push_frame frame direction)
  (* Don't block function call frames *)
  else if is_function_call_frame frame then
    emit (push_frame frame direction)
  (* Ignore frames that are not following the direction of this gate. *)
  else if negb (FrameDirection_eqb direction DOWNSTREAM) then
    emit (push_frame frame direction)
  else
    open <- gets _gate_open ;;
    if open then emit (push_frame frame direction)
    else
      modify (fun g => set_frames_buffer (_frames_buffer g ++ [(frame, direction)]) g).

(** One turn of the loop of [_gate_task_handler], from the return of
    [self._notifier.wait()] to the next wait.  The flush is taken as one
    step: no frame is delivered to the gate between two pushes of it. *)
Definition _gate_task_wake : M t Event unit :=
  open_gate ;;
  buffer <- gets _frames_buffer ;;
  for_each buffer (fun fd => emit (push_frame (fst fd) (snd fd))) ;;
  modify (set_frames_buffer []).

(** What reaches the gate: a frame delivered by a neighbour, or a signal of
    the notifier.  A signal wakes the gate task; before [_start] has created
    the task nobody is waiting and the gate itself does nothing. *)
Inductive Input : Type :=
| Deliver (f : Frame) (d : FrameDirection)
| NotifierFires.

Definition step (i : Input) : M t Event unit :=
  match i with
  | Deliver f d => process_frame f d
  | NotifierFires =>
      k <- gets _gate_task ;;
      match k with
      | Some _ => _gate_task_wake
      | None => ret tt
      end
  end.

Definition run (inputs : list Input) : M t Event unit := for_each inputs step.

End Hierarchy.

(** The frames pushed to the neighbours, in order. *)
Fixpoint pushed (tr : list Event) : list (Frame * FrameDirection) :=
  match tr with
  | [] => []
  | push_frame f d :: rest => (f, d) :: pushed rest
  | _ :: rest => pushed rest
  end.

End OutputGate.

(** ** BaseInputTransport *)

Module BaseInputTransport.

(** Collaborators held in [TransportParams]: they live outside the
    transport, so only their presence is state here and every call on them
    is an event. *)
Inductive VADAnalyzer : Type := a_vad_analyzer.
Inductive BaseEndOfTurnAnalyzer : Type := an_end_of_turn_analyzer.
Inductive BaseAudioFilter : Type := an_audio_filter.

(** The fields of pipecat.transports.base_transport.TransportParams that
    the input transport reads. *)
Record TransportParams : Type := {
  audio_in_enabled : bool;
  audio_in_sample_rate : option Z;
  audio_in_filter : option BaseAudioFilter;
  audio_out_10ms_chunks : Z;
  vad_enabled : bool;
  vad_audio_passthrough : bool;
  vad_analyzer : option VADAnalyzer;
  end_of_turn_analyzer : option BaseEndOfTurnAnalyzer
}.

Record ThreadPoolExecutor : Type := { max_workers : nat }.

Record t : Type := mk {
  _params : TransportParams;
  _sample_rate : Z;
  _executor : ThreadPoolExecutor;
  _audio_task : option Task;
  (* the attribute does not exist before [start] creates the queue *)
  _audio_in_queue : option (list Frame);
  (* property of FrameProcessor, fixed by the pipeline's StartFrame *)
  interruptions_allowed : bool
}.

(** Work handed to the executor. *)
Inductive Call : Type :=
| vad_analyze_audio (audio : bytes)
| end_of_turn_analyze_audio (audio : bytes) (is_speech : bool).

Inductive Event : Type :=
| super_process_frame (f : Frame) (d : FrameDirection)
| push_frame (f : Frame) (d : FrameDirection)
| vad_set_sample_rate (rate : Z)
| vad_set_params (params : nat)
| end_of_turn_set_sample_rate (rate : Z)
| end_of_turn_set_chunk_size_ms (ms : Z)
| filter_start (rate : Z)
| filter_stop
| filter_process_frame (f : Frame)
| filter_filter (audio : bytes)
| create_queue
| create_task (c : Coroutine)
| cancel_task (k : Task)
| _start_interruption
| _stop_interruption
| run_in_executor (ex : ThreadPoolExecutor) (c : Call)
| queue_put (f : Frame)
| queue_task_done.

Definition Method := M t Event.

Definition set_sample_rate (r : Z) (s : t) : t :=
  mk (_params s) r (_executor s) (_audio_task s) (_audio_in_queue s) (interruptions_allowed s).
Definition set_audio_task (k : option Task) (s : t) : t :=
  mk (_params s) (_sample_rate s) (_executor s) k (_audio_in_queue s) (interruptions_allowed s).
Definition set_audio_in_queue (q : option (list Frame)) (s : t) : t :=
  mk (_params s) (_sample_rate s) (_executor s) (_audio_task s) q (interruptions_allowed s).

Definition is_some {A} (o : option A) : bool :=
  match o with Some _ => true | None => false end.

(** [__init__(self, params)]; [allow_interruptions] is what the base class
    will answer for [self.interruptions_allowed]. *)
Definition init (params : TransportParams) (allow_interruptions : bool) : t :=
  {| _params := params;
     (* Input sample rate. It will be initialized on StartFrame. *)
     _sample_rate := 0;
     (* only one thread should be necessary *)
     _executor := {| max_workers := 1 |};
     _audio_task := None;
     _audio_in_queue := None;
     interruptions_allowed := allow_interruptions |}.

Definition start (frame_audio_in_sample_rate : Z) : Method unit :=
  p <- gets _params ;;
  modify (set_sample_rate (py_or_int (audio_in_sample_rate p) frame_audio_in_sample_rate)) ;;
  (* Configure VAD analyzer. *)
  when (vad_enabled p && is_some (vad_analyzer p))
       (rate <- gets _sample_rate ;; emit (vad_set_sample_rate rate)) ;;
  (* Configure End of turn analyzer. *)
  when (is_some (end_of_turn_analyzer p))
       (rate <- gets _sample_rate ;;
        emit (end_of_turn_set_sample_rate rate) ;;
        emit (end_of_turn_set_chunk_size_ms (audio_out_10ms_chunks p * 10))) ;;
  (* Start audio filter. *)
  when (is_some (audio_in_filter p))
       (rate <- gets _sample_rate ;; emit (filter_start rate)) ;;
  (* Create audio input queue and task if needed. *)
  task <- gets _audio_task ;;
  when (negb (is_some task) && (audio_in_enabled p || vad_enabled p))
       (emit create_queue ;;
        modify (set_audio_in_queue (Some [])) ;;
        emit (create_task audio_task_handler) ;;
        modify (set_audio_task (Some audio_task_handler))).

Definition stop : Method unit :=
  p <- gets _params ;;
  task <- gets _audio_task ;;
  (* Cancel and wait for the audio input task to finish. *)
  match task with
  | Some k =>
      when (audio_in_enabled p || vad_enabled p)
           (emit (cancel_task k) ;; modify (set_audio_task None))
  | None => ret tt
  end ;;
  (* Stop audio filter. *)
  when (is_some (audio_in_filter p)) (emit filter_stop).

Definition cancel : Method unit :=
  p <- gets _params ;;
  task <- gets _audio_task ;;
  match task with
  | Some k =>
      when (audio_in_enabled p || vad_enabled p)
           (emit (cancel_task k) ;; modify (set_audio_task None))
  | None => ret tt
  end.

Definition push_audio_frame (frame : Frame) : Method unit :=
  p <- gets _params ;;
  when (audio_in_enabled p || vad_enabled p)
       (q <- gets _audio_in_queue ;;
        match q with
        | Some l => emit (queue_put frame) ;; modify (set_audio_in_queue (Some (l ++ [frame])))
        | None => raise (OtherException "AttributeError")
        end).

(** *** Handle interruptions *)

Definition _handle_bot_interruption : Method unit :=
  allowed <- gets interruptions_allowed ;;
  when allowed
       (emit _start_interruption ;;
        emit (push_frame StartInterruptionFrame DOWNSTREAM)).

Definition _handle_user_interruption (frame : Frame) : Method unit :=
  match frame with
  | UserStartedSpeakingFrame _ =>
      emit (push_frame frame DOWNSTREAM) ;;
      (* Make sure we notify about interruptions quickly out-of-band. *)
      allowed <- gets interruptions_allowed ;;
      when allowed
           (emit _start_interruption ;;
            emit (push_frame StartInterruptionFrame DOWNSTREAM))
  | UserStoppedSpeakingFrame _ =>
      emit (push_frame frame DOWNSTREAM) ;;
      allowed <- gets interruptions_allowed ;;
      when allowed
           (emit _stop_interruption ;;
            emit (push_frame StopInterruptionFrame DOWNSTREAM))
  | UserEndOfTurnFrame =>
      emit (push_frame frame DOWNSTREAM)
  | _ => ret tt
  end.

(** *** Frame processor *)

Section Hierarchy.

(** [isinstance(frame, SystemFrame)] *)
Variable isinstance_SystemFrame : Frame -> bool.

Definition process_frame (frame : Frame) (direction : FrameDirection) : Method unit :=
  emit (super_process_frame frame direction) ;;
  match frame with
  (* Specific system frames *)
  | StartFrame rate =>
      (* Push StartFrame before start() *)
      emit (push_frame frame direction) ;;
      start rate
  | CancelFrame =>
      cancel ;;
      emit (push_frame frame direction)
  | BotInterruptionFrame => _handle_bot_interruption
  | EmulateUserStartedSpeakingFrame =>
      _handle_user_interruption (UserStartedSpeakingFrame true)
  | EmulateUserStoppedSpeakingFrame =>
      _handle_user_interruption (UserStoppedSpeakingFrame true)
  | _ =>
      (* All other system frames *)
      if isinstance_SystemFrame frame then emit (push_frame frame direction)
      else
        p <- gets _params ;;
        match frame with
        (* Control frames *)
        | EndFrame =>
            (* Push EndFrame before stop() *)
            emit (push_frame frame direction) ;;
            stop
        | VADParamsUpdateFrame params =>
            when (is_some (vad_analyzer p)) (emit (vad_set_params params))
        | FilterUpdateSettingsFrame _ =>
            if is_some (audio_in_filter p) then emit (filter_process_frame frame)
            else emit (push_frame frame direction)
        (* Other frames *)
        | _ => emit (push_frame frame direction)
        end
  end.

End Hierarchy.

(** *** Audio input *)

(** What the collaborators answer while one audio frame is handled: the
    filter's output, the VAD analyzer's state and the end-of-turn
    analyzer's state (which may depend on the flag it is called with). *)
Record Answers : Type := {
  filtered : bytes;
  vad_says : VADState;
  end_of_turn_says : bool -> EndOfTurnState
}.

Definition _vad_analyze (audio : bytes) (a : Answers) : Method VADState :=
  p <- gets _params ;;
  match vad_analyzer p with
  | Some _ =>
      ex <- gets _executor ;;
      emit (run_in_executor ex (vad_analyze_audio audio)) ;;
      ret (vad_says a)
  | None => ret QUIET
  end.

Definition _handle_vad (audio : bytes) (vad_state : VADState) (a : Answers)
  : Method VADState :=
  new_vad_state <- _vad_analyze audio a ;;
  if negb (VADState_eqb new_vad_state vad_state)
     && negb (VADState_eqb new_vad_state STARTING)
     && negb (VADState_eqb new_vad_state STOPPING)
  then
    let frame :=
      match new_vad_state with
      | SPEAKING => Some (UserStartedSpeakingFrame false)
      | QUIET => Some (UserStoppedSpeakingFrame false)
      | _ => None
      end in
    match frame with
    | Some f => _handle_user_interruption f
    | None => ret tt
    end ;;
    ret new_vad_state
  else ret vad_state.

Definition _end_of_turn_analyze (audio : bytes) (is_speech : bool) (a : Answers)
  : Method EndOfTurnState :=
  p <- gets _params ;;
  match end_of_turn_analyzer p with
  | Some _ =>
      ex <- gets _executor ;;
      emit (run_in_executor ex (end_of_turn_analyze_audio audio is_speech)) ;;
      ret (end_of_turn_says a is_speech)
  | None => ret INCOMPLETE
  end.

Definition _handle_end_of_turn (audio : bytes) (end_of_turn_state : EndOfTurnState)
  (is_speech : bool) (a : Answers) : Method EndOfTurnState :=
  new_eot_state <- _end_of_turn_analyze audio is_speech a ;;
  when (negb (EndOfTurnState_eqb new_eot_state end_of_turn_state))
       (_handle_user_interruption UserEndOfTurnFrame) ;;
  ret new_eot_state.

(** The body of the [while True] of [_audio_task_handler] for the frame
    that [self._audio_in_queue.get()] returned. *)
Definition _audio_task_iteration (audio : bytes) (a : Answers)
  (vad_state : VADState) (end_of_turn_state : EndOfTurnState)
  : Method (VADState * EndOfTurnState) :=
  p <- gets _params ;;
  (* If an audio filter is available, run it before VAD. *)
  audio <- match audio_in_filter p with
           | Some _ => emit (filter_filter audio) ;; ret (filtered a)
           | None => ret audio
           end ;;
  (* Check VAD and push event if necessary. *)
  va <- (if vad_enabled p
         then v <- _handle_vad audio vad_state a ;; ret (v, vad_audio_passthrough p)
         else ret (vad_state, true)) ;;
  let vad_state := fst va in
  let audio_passthrough := snd va in
  end_of_turn_state <-
    match end_of_turn_analyzer p with
    | Some _ =>
        let is_speech := VADState_eqb vad_state SPEAKING || VADState_eqb vad_state STARTING in
        _handle_end_of_turn audio end_of_turn_state is_speech a
    | None => ret end_of_turn_state
    end ;;
  (* Push audio downstream if passthrough. *)
  when audio_passthrough (emit (push_frame (InputAudioRawFrame audio) DOWNSTREAM)) ;;
  emit queue_task_done ;;
  ret (vad_state, end_of_turn_state).

(** The loop over the frames the queue delivers, from given tracked states. *)
Fixpoint _audio_task_loop (inputs : list (bytes * Answers))
  (vad_state : VADState) (end_of_turn_state : EndOfTurnState)
  : Method (VADState * EndOfTurnState) :=
  match inputs with
  | [] => ret (vad_state, end_of_turn_state)
  | (audio, a) :: rest =>
      st <- _audio_task_iteration audio a vad_state end_of_turn_state ;;
      _audio_task_loop rest (fst st) (snd st)
  end.

Definition _audio_task_handler (inputs : list (bytes * Answers))
  : Method (VADState * EndOfTurnState) :=
  _audio_task_loop inputs QUIET INCOMPLETE.

(** *** Observations on traces *)

Fixpoint pushed (tr : list Event) : list (Frame * FrameDirection) :=
  match tr with
  | [] => []
  | push_frame f d :: rest => (f, d) :: pushed rest
  | _ :: rest => pushed rest
  end.

Definition is_speaking_transition (f : Frame) : bool :=
  match f with
  | UserStartedSpeakingFrame _ | UserStoppedSpeakingFrame _ => true
  | _ => false
  end.

Definition is_UserStartedSpeakingFrame (f : Frame) : bool :=
  match f with UserStartedSpeakingFrame _ => true | _ => false end.


(** The frames of a trace that satisfy [p], in order. *)
Definition pushed_frames (p : Frame -> bool) (tr : list Event) : list Frame :=
  filter p (map fst (pushed tr)).


Definition is_push (e : Event) : bool :=
  match e with push_frame _ _ => true | _ => false end.

Definition is_configuration (e : Event) : bool :=
  match e with
  | vad_set_sample_rate _ | end_of_turn_set_sample_rate _
  | end_of_turn_set_chunk_size_ms _ | filter_start _ => true
  | _ => false
  end.

Definition is_creation (e : Event) : bool :=
  match e with create_queue | create_task _ => true | _ => false end.

End BaseInputTransport.

(** ** AWSTranscribeSTTService *)

Module AWSTranscribeSTTService.

(** pipecat.transcriptions.language.Language: the members the service maps,
    and any other member. *)
Inductive Language : Type :=
| EN | ES | FR | DE | IT | PT | JA | KO | ZH | PL
| OtherLanguage (code : string).

Definition language_to_service_language (language : Language) : option string :=
  match language with
  | EN => Some "en-US"%string
  | ES => Some "es-US"%string
  | FR => Some "fr-FR"%string
  | DE => Some "de-DE"%string
  | IT => Some "it-IT"%string
  | PT => Some "pt-BR"%string
  | JA => Some "ja-JP"%string
  | KO => Some "ko-KR"%string
  | ZH => Some "zh-CN"%string
  | PL => Some "pl-PL"%string
  | OtherLanguage _ => None
  end.

Record Settings : Type := {
  sample_rate : Z;
  language : Language;
  media_encoding : string;
  number_of_channels : Z;
  show_speaker_label : bool;
  enable_channel_identification : bool
}.

Record Credentials : Type := {
  aws_access_key_id : option string;
  aws_secret_access_key : option string;
  aws_session_token : option string;
  region : option string
}.

(** websockets.protocol.State *)
Inductive State : Type := CONNECTING | OPEN | CLOSING | CLOSED.

Record t : Type := mk {
  _settings : Settings;
  _credentials : Credentials;
  (* the client, by the state it shows when the service looks at it *)
  _ws_client : option State;
  _connecting : bool;
  _receive_task : option Task;
  (* calls of [websocket_connect] made so far: the index of the next answer
     of the network *)
  connect_calls : nat
}.

Inductive Event : Type :=
| super_init
| super_start
| log_info (msg : string)
| log_warning (msg : string)
| log_error (msg : string)
| websocket_connect (language_code : string) (rate : Z)
| create_task (c : Coroutine)
| cancel_task (k : Task)
| ws_send_end_stream
| ws_close
| sleep (seconds : Z).

Definition Method := M t Event.

Definition set_settings (x : Settings) (s : t) : t :=
  mk x (_credentials s) (_ws_client s) (_connecting s) (_receive_task s) (connect_calls s).
Definition set_credentials (x : Credentials) (s : t) : t :=
  mk (_settings s) x (_ws_client s) (_connecting s) (_receive_task s) (connect_calls s).
Definition set_ws_client (x : option State) (s : t) : t :=
  mk (_settings s) (_credentials s) x (_connecting s) (_receive_task s) (connect_calls s).
Definition set_connecting (x : bool) (s : t) : t :=
  mk (_settings s) (_credentials s) (_ws_client s) x (_receive_task s) (connect_calls s).
Definition set_receive_task (x : option Task) (s : t) : t :=
  mk (_settings s) (_credentials s) (_ws_client s) (_connecting s) x (connect_calls s).
Definition count_connect_call (s : t) : t :=
  mk (_settings s) (_credentials s) (_ws_client s) (_connecting s) (_receive_task s)
     (Datatypes.S (connect_calls s)).

Definition with_sample_rate (r : Z) (x : Settings) : Settings :=
  {| sample_rate := r;
     language := language x;
     media_encoding := media_encoding x;
     number_of_channels := number_of_channels x;
     show_speaker_label := show_speaker_label x;
     enable_channel_identification := enable_channel_identification x |}.

(** Python's [a or b] on optional strings: [None] and the empty string are falsy. *)
Definition py_or_str (a b : option string) : option string :=
  match a with
  | Some EmptyString | None => b
  | Some _ => a
  end.

(** The object before [__init__] has assigned anything. *)
Definition blank : t :=
  {| _settings := {| sample_rate := 0; language := EN; media_encoding := "";
                     number_of_channels := 0; show_speaker_label := false;
                     enable_channel_identification := false |};
     _credentials := {| aws_access_key_id := None; aws_secret_access_key := None;
                        aws_session_token := None; region := None |};
     _ws_client := None;
     _connecting := false;
     _receive_task := None;
     connect_calls := 0 |}.

Section Environment.

(** [os.getenv] *)
Variable getenv : string -> option string.

Definition init (api_key aws_access_key_id aws_session_token region : option string)
  (sample_rate : Z) (language : Language) : Method unit :=
  emit super_init ;;
  modify (set_settings
            {| sample_rate := sample_rate;
               language := language;
               media_encoding := "linear16";  (* AWS expects raw PCM *)
               number_of_channels := 1;
               show_speaker_label := false;
               enable_channel_identification := false |}) ;;
  (* Validate sample rate - AWS Transcribe only supports 8000 Hz or 16000 Hz *)
  when (negb (py_in sample_rate [8000; 16000]))
       (emit (log_warning "AWS Transcribe only supports 8000 Hz or 16000 Hz sample rates.") ;;
        modify (fun s => set_settings (with_sample_rate 16000 (_settings s)) s)) ;;
  modify (set_credentials
            {| aws_access_key_id := py_or_str aws_access_key_id (getenv "AWS_ACCESS_KEY_ID");
               aws_secret_access_key := py_or_str api_key (getenv "AWS_SECRET_ACCESS_KEY");
               aws_session_token := py_or_str aws_session_token (getenv "AWS_SESSION_TOKEN");
               region := py_or_str region
                           (match getenv "AWS_REGION" with
                            | Some r => Some r
                            | None => Some "us-east-1"%string
                            end) |}) ;;
  modify (set_ws_client None) ;;
  modify (set_connecting false) ;;
  modify (set_receive_task None).

(** [AWSTranscribeSTTService(...)]: the outcome of construction, the object
    and what was logged. *)
Definition new (api_key aws_access_key_id aws_session_token region : option string)
  (sample_rate : Z) (language : Language) : Outcome unit * t * list Event :=
  init api_key aws_access_key_id aws_session_token region sample_rate language blank.

End Environment.

Definition is_open (ws : option State) : bool :=
  match ws with Some OPEN => true | _ => false end.

Definition is_some {A} (o : option A) : bool :=
  match o with Some _ => true | None => false end.

(** The calls on the client are taken to return; were one to raise, the
    handler would log it and the client would be dropped all the same. *)
Definition _disconnect : Method unit :=
  task <- gets _receive_task ;;
  match task with
  | Some k => emit (cancel_task k) ;; modify (set_receive_task None)
  | None => ret tt
  end ;;
  try_finally
    (try_except
       (ws <- gets _ws_client ;;
        match ws with
        | Some OPEN => emit ws_send_end_stream ;; emit ws_close
        | Some _ => emit ws_close
        | None => raise (OtherException "AttributeError")
        end)
       (fun e => emit (log_warning "Error closing WebSocket connection")))
    (modify (set_ws_client None)).

(** What the network answers to one call of [websocket_connect] (the
    presigned URL included): a client, in the state the service finds it in
    when it next looks, or an exception. *)
Inductive Answer : Type :=
| Connects (st : State)
| Fails (e : Exn).

Section Network.

(** The answer to the n-th call of [websocket_connect], counted from 0. *)
Variable network : nat -> Answer.

Definition _connect : Method unit :=
  s <- get ;;
  if is_open (_ws_client s) && is_some (_receive_task s) then
    ret tt (* Already connected *)
  else
    (* async with self._connection_lock *)
    if _connecting s then ret tt (* Connection already in progress *)
    else
      try_finally
        (try_except
           (modify (set_connecting true) ;;
            ws <- gets _ws_client ;;
            when (is_some ws) _disconnect ;;
            settings <- gets _settings ;;
            match language_to_service_language (language settings) with
            | None => raise (ValueError "Unsupported language")
            | Some language_code =>
                n <- gets connect_calls ;;
                emit (websocket_connect language_code (sample_rate settings)) ;;
                modify count_connect_call ;;
                match network n with
                | Fails e => raise e
                | Connects st =>
                    modify (set_ws_client (Some st)) ;;
                    (* Start receive task *)
                    emit (create_task receive_loop) ;;
                    modify (set_receive_task (Some receive_loop)) ;;
                    emit (log_info "Successfully connected to AWS Transcribe")
                end
            end)
           (fun e =>
              emit (log_error "Failed to connect to AWS Transcribe") ;;
              _disconnect ;;
              raise e))
        (modify (set_connecting false)).

Definition max_retries : Z := 3.

(** The [while retry_count < max_retries] loop of [start], unrolled at most
    [fuel] times. *)
Fixpoint start_loop (fuel : nat) (retry_count : Z) : Method unit :=
  if retry_count <? max_retries then
    match fuel with
    | O => out_of_fuel
    | Datatypes.S fuel' =>
        r <- try_except
               (_connect ;;
                ws <- gets _ws_client ;;
                if is_open ws then
                  emit (log_info "Successfully established WebSocket connection") ;;
                  ret None (* return *)
                else
                  emit (log_warning "WebSocket connection not established after connect") ;;
                  ret (Some retry_count))
               (fun e =>
                  emit (log_error "Failed to connect") ;;
                  let retry_count := retry_count + 1 in
                  when (retry_count <? max_retries) (emit (sleep 1)) ;;
                  ret (Some retry_count)) ;;
        match r with
        | None => ret tt
        | Some retry_count => start_loop fuel' retry_count
        end
    end
  else
    raise (RuntimeError "Failed to establish WebSocket connection after multiple attempts").

Definition start (fuel : nat) : Method unit :=
  emit super_start ;;
  emit (log_info "Starting AWS Transcribe service...") ;;
  start_loop fuel 0.

End Network.

(** Number of calls of [websocket_connect] in a trace. *)
Fixpoint connection_attempts (tr : list Event) : nat :=
  match tr with
  | [] => O
  | websocket_connect _ _ :: rest => Datatypes.S (connection_attempts rest)
  | _ :: rest => connection_attempts rest
  end.

Fixpoint warnings (tr : list Event) : nat :=
  match tr with
  | [] => O
  | log_warning _ :: rest => Datatypes.S (warnings rest)
  | _ :: rest => warnings rest
  end.

(** The states from which [start] connects afresh: a language the service
    maps, no connection attempt in progress, no open client. *)
Definition ready (s : t) : Prop :=
  language_to_service_language (language (_settings s)) <> None /\
  _connecting s = false /\
  is_open (_ws_client s) = false.

End AWSTranscribeSTTService.

(** ** Runs and observations

    Sequences of deliveries and what is counted on their traces. *)

Module GateTrace.

Import OutputGate.

Fixpoint tasks_created (tr : list Event) : nat :=
  match tr with
  | [] => O
  | create_task _ :: rest => Datatypes.S (tasks_created rest)
  | _ :: rest => tasks_created rest
  end.

Fixpoint tasks_cancelled (tr : list Event) : nat :=
  match tr with
  | [] => O
  | cancel_task _ :: rest => Datatypes.S (tasks_cancelled rest)
  | _ :: rest => tasks_cancelled rest
  end.

(** 1 while the gate holds a task, 0 otherwise. *)
Definition live (g : t) : nat :=
  match _gate_task g with Some _ => 1%nat | None => 0%nat end.

(** The frames among [inputs] that were delivered, in order. *)
Definition delivered (inputs : list Input) : list (Frame * FrameDirection) :=
  flat_map (fun i => match i with Deliver f d => [(f, d)] | NotifierFires => [] end) inputs.

Section Hierarchy.

Variable isinstance_SystemFrame : Frame -> bool.

(** A frame the gate may hold back: travelling downstream, neither a system
    frame nor a function-call frame. *)
Definition held_back (fd : Frame * FrameDirection) : bool :=
  negb (isinstance_SystemFrame (fst fd))
  && negb (is_function_call_frame (fst fd))
  && FrameDirection_eqb (snd fd) DOWNSTREAM.

(** A frame on which the gate empties its buffer: a StartFrame or a
    StartInterruptionFrame that is a system frame. *)
Definition discards (i : Input) : bool :=
  match i with
  | Deliver f _ =>
      isinstance_SystemFrame f && (is_StartFrame f || is_StartInterruptionFrame f)
  | NotifierFires => false
  end.

End Hierarchy.

End GateTrace.

Module TransportTrace.

Import BaseInputTransport.

Section Hierarchy.

Variable isinstance_SystemFrame : Frame -> bool.

(** The frames of [deliveries] handed to [process_frame] one after the other. *)
Definition process_frames (deliveries : list (Frame * FrameDirection)) : Method unit :=
  for_each deliveries (fun fd => process_frame isinstance_SystemFrame (fst fd) (snd fd)).

(** The frames the transport has no handling of its own for: not one of the
    three requests it turns into other frames, and not a parameter update
    it consumes (an update is consumed unless it is dispatched as a system
    frame). *)
Definition passes (f : Frame) : bool :=
  match f with
  | BotInterruptionFrame | EmulateUserStartedSpeakingFrame
  | EmulateUserStoppedSpeakingFrame => false
  | VADParamsUpdateFrame _ | FilterUpdateSettingsFrame _ => isinstance_SystemFrame f
  | _ => true
  end.

End Hierarchy.

Fixpoint tasks_created (tr : list Event) : nat :=
  match tr with
  | [] => O
  | create_task _ :: rest => Datatypes.S (tasks_created rest)
  | _ :: rest => tasks_created rest
  end.

Fixpoint tasks_cancelled (tr : list Event) : nat :=
  match tr with
  | [] => O
  | cancel_task _ :: rest => Datatypes.S (tasks_cancelled rest)
  | _ :: rest => tasks_cancelled rest
  end.

Definition live (s : t) : nat :=
  match _audio_task s with Some _ => 1%nat | None => 0%nat end.

(** The state the VAD analysis of one audio frame yields to the loop:
    nothing when VAD is disabled, QUIET when no analyzer is configured, the
    analyzer's answer otherwise. *)
Definition heard (s : t) (a : Answers) : option VADState :=
  if vad_enabled (_params s) then
    Some (match vad_analyzer (_params s) with
          | Some _ => vad_says a
          | None => QUIET
          end)
  else None.

(** The audio the loop works on: the filter's output when a filter is
    configured. *)
Definition worked_on (s : t) (input : bytes * Answers) : bytes :=
  match audio_in_filter (_params s) with
  | Some _ => filtered (snd input)
  | None => fst input
  end.

Definition is_InputAudioRawFrame (f : Frame) : bool :=
  match f with InputAudioRawFrame _ => true | _ => false end.

Definition is_interruption (f : Frame) : bool :=
  match f with StartInterruptionFrame | StopInterruptionFrame => true | _ => false end.

(** The interruption frame that accompanies a speaking transition. *)
Definition window (f : Frame) : Frame :=
  match f with
  | UserStartedSpeakingFrame _ => StartInterruptionFrame
  | _ => StopInterruptionFrame
  end.

(** Transition frames take turns, a start first when [start_next]. *)
Fixpoint alternates (start_next : bool) (l : list Frame) : bool :=
  match l with
  | [] => true
  | UserStartedSpeakingFrame _ :: rest => start_next && alternates false rest
  | UserStoppedSpeakingFrame _ :: rest => negb start_next && alternates true rest
  | _ :: _ => false
  end.

(** Interruption windows open and close in turn, an opening first when
    [open_next]. *)
Fixpoint windows_alternate (open_next : bool) (l : list Frame) : bool :=
  match l with
  | [] => true
  | StartInterruptionFrame :: rest => open_next && windows_alternate false rest
  | StopInterruptionFrame :: rest => negb open_next && windows_alternate true rest
  | _ :: _ => false
  end.

(** The states the analysis yields along a run of the loop. *)
Definition heard_along (s : t) (inputs : list (bytes * Answers)) : list VADState :=
  flat_map (fun i => match heard s (snd i) with Some n => [n] | None => [] end) inputs.

(** A held audio task comes with its queue and with an input to read. *)
Definition task_inv (s : t) : bool :=
  match _audio_task s with
  | None => true
  | Some _ =>
      is_some (_audio_in_queue s)
      && (audio_in_enabled (_params s) || vad_enabled (_params s))
  end.


End TransportTrace.

(** ** AWSTranscribeSTTService: streaming

    [run_stt], [_receive_loop], [stop] and [cancel].  They call [_connect]
    and [_disconnect] and, besides, talk to the websocket client, to the
    metrics of the base class and to the pipeline; the trace alphabet is
    widened accordingly. *)

(** A computation run under a wider alphabet. *)
Definition widen {S E E' A} (f : E -> E') (c : M S E A) : M S E' A :=
  fun s =>
    match c s with
    | (r, s', tr) => (r, s', map f tr)
    end.

Module AWSTranscribeStreaming.

Import AWSTranscribeSTTService.


(** A result of a decoded message of the event stream, each key present or
    missing. *)
Record Alternative : Type := { alt_Transcript : option string }.

Record Result : Type := {
  Alternatives : option (list Alternative);
  IsPartial : option bool
}.

(** The frames the service produces.  The transcription frames carry the
    text, the settings' language and the whole result they were read from
    ([result=result]); their user id and timestamp, which do not come from
    the message, are left out. *)
Inductive OutFrame : Type :=
| TranscriptionFrame (text : string) (language : Language) (result : Result)
| InterimTranscriptionFrame (text : string) (language : Language) (result : Result)
| ErrorFrame (error : string) (fatal : bool).

Inductive StreamEvent : Type :=
| service (e : Event)
| super_stop
| super_cancel
| build_event_message (audio : bytes)
| ws_send (audio : bytes)
| ws_recv
| start_processing_metrics
| start_ttfb_metrics
| stop_ttfb_metrics
| stop_processing_metrics
| yield_frame (f : OutFrame)
| push_frame (f : OutFrame)
| _handle_transcription (transcript : string) (is_final : bool)
| reset_watchdog.

Definition Stream := M t StreamEvent.

Definition stop : Stream unit :=
  emit super_stop ;;
  widen service _disconnect.

Definition cancel : Stream unit :=
  emit super_cancel ;;
  widen service _disconnect.

Definition is_closed (ws : option State) : bool :=
  match ws with Some CLOSED => true | _ => false end.

(** [str(e)] *)
Definition str (e : Exn) : string :=
  match e with
  | RuntimeError msg | ValueError msg | OtherException msg => msg
  end.

(** What happens to one audio chunk on its way out: whether
    [build_event_message] raises, and how [self._ws_client.send] ends. *)
Inductive SendAnswer : Type :=
| Sent
| SendConnectionClosed
| SendRaises (e : Exn).

Record Sending : Type := {
  encoding_raises : option Exn;
  send_answer : SendAnswer
}.

Section Network.

Variable network : nat -> Answer.

Definition run_stt (audio : bytes) (w : Sending) : Stream unit :=
  try_except
    ((* Ensure WebSocket is connected *)
     ws <- gets _ws_client ;;
     connected <-
       (if negb (is_some ws) || is_closed ws then
          try_except
            (widen service (_connect network) ;; ret true)
            (fun e =>
               emit (service (log_error "Failed to reconnect")) ;;
               emit (yield_frame (ErrorFrame "Failed to reconnect to AWS Transcribe" false)) ;;
               ret false)
        else ret true) ;;
     if negb connected then ret tt (* return *)
     else
       (* Format the audio data according to AWS event stream format *)
       match encoding_raises w with
       | Some e => raise e
       | None => emit (build_event_message audio)
       end ;;
       (* Send the formatted event message *)
       ws <- gets _ws_client ;;
       match ws with
       | None =>
           (* None has no send: the AttributeError is an Exception.  The
              metrics calls that follow a send are taken to return. *)
           emit (service (log_error "Error sending audio")) ;;
           emit (yield_frame
                   (ErrorFrame
                      ("AWS Transcribe error: "
                         ++ "'NoneType' object has no attribute 'send'")%string false)) ;;
           widen service _disconnect
       | Some _ =>
           emit (ws_send audio) ;;
           match send_answer w with
           | Sent =>
               (* Start metrics after first chunk sent *)
               emit start_processing_metrics ;;
               emit start_ttfb_metrics
           | SendConnectionClosed =>
               emit (service (log_warning "Connection closed while sending")) ;;
               widen service _disconnect
               (* Don't yield error here - we'll retry on next frame *)
           | SendRaises e =>
               emit (service (log_error "Error sending audio")) ;;
               emit (yield_frame (ErrorFrame ("AWS Transcribe error: " ++ str e)%string false)) ;;
               widen service _disconnect
           end
       end)
    (fun e =>
       emit (service (log_error "Error in run_stt")) ;;
       emit (yield_frame (ErrorFrame ("AWS Transcribe error: " ++ str e)%string false)) ;;
       widen service _disconnect).

End Network.


(** The payload of a decoded message and the headers' [":message-type"]. *)
Record Transcript : Type := { Results : option (list Result) }.

Record Payload : Type := {
  payload_Transcript : option Transcript;
  payload_Message : option string
}.

(** How one [recv] bounded by its timeout, followed by [decode_event], ends. *)
Inductive Recv : Type :=
| RecvTimeout
| RecvConnectionClosed
| RecvRaises (e : Exn)
| Received (message_type : option string) (payload : Payload).

(** [d.get(key, default)] *)
Definition get_default {A} (o : option A) (default : A) : A :=
  match o with Some x => x | None => default end.

Definition is_empty (s : string) : bool :=
  match s with EmptyString => true | _ => false end.

Definition option_string_eqb (o : option string) (s : string) : bool :=
  match o with Some x => String.eqb x s | None => false end.

(** One turn of the [while True] of [_receive_loop]; the answer is whether
    the loop goes on. *)
Definition _receive_iteration (r : Recv) : Stream bool :=
  ws <- gets _ws_client ;;
  if negb (is_some ws) || is_closed ws then
    emit (service (log_warning "WebSocket closed in receive loop")) ;;
    ret false
  else
    emit ws_recv ;;
    match r with
    | RecvTimeout => emit reset_watchdog ;; ret true
    | RecvConnectionClosed =>
        emit (service (log_error "WebSocket connection closed in receive loop")) ;;
        ret false
    | RecvRaises e =>
        emit (service (log_error "Unexpected error in receive loop")) ;;
        ret false
    | Received message_type payload =>
        (if option_string_eqb message_type "event" then
           (* Process transcription results *)
           let results :=
             get_default (Results (get_default (payload_Transcript payload)
                                     {| Results := None |})) [] in
           match results with
           | [] => ret tt
           | result :: _ =>
               let alternatives := get_default (Alternatives result) [] in
               match alternatives with
               | [] => ret tt
               | alternative :: _ =>
                   let transcript := get_default (alt_Transcript alternative) EmptyString in
                   let is_final := negb (get_default (IsPartial result) true) in
                   if negb (is_empty transcript) then
                     emit stop_ttfb_metrics ;;
                     settings <- gets _settings ;;
                     if is_final then
                       emit (push_frame
                               (TranscriptionFrame transcript (language settings) result)) ;;
                       emit (_handle_transcription transcript is_final) ;;
                       emit stop_processing_metrics
                     else
                       emit (push_frame
                               (InterimTranscriptionFrame transcript (language settings)
                                  result))
                   else ret tt
               end
           end
         else if option_string_eqb message_type "exception" then
           let error_msg := get_default (payload_Message payload) "Unknown error"%string in
           emit (service (log_error "Exception from AWS")) ;;
           emit (push_frame (ErrorFrame ("AWS Transcribe error: " ++ error_msg)%string false))
         else ret tt) ;;
        ret true
    end.

(** The loop over what the socket delivers, until it breaks. *)
Fixpoint _receive_loop (rs : list Recv) : Stream unit :=
  match rs with
  | [] => ret tt
  | r :: rest =>
      continue <- _receive_iteration r ;;
      if continue then _receive_loop rest else ret tt
  end.

(** *** Observations *)

Fixpoint yielded (tr : list StreamEvent) : list OutFrame :=
  match tr with
  | [] => []
  | yield_frame f :: rest => f :: yielded rest
  | _ :: rest => yielded rest
  end.

Fixpoint pushed (tr : list StreamEvent) : list OutFrame :=
  match tr with
  | [] => []
  | push_frame f :: rest => f :: pushed rest
  | _ :: rest => pushed rest
  end.

Fixpoint sent (tr : list StreamEvent) : list bytes :=
  match tr with
  | [] => []
  | ws_send a :: rest => a :: sent rest
  | _ :: rest => sent rest
  end.

(** Whether the chunk went out: the metrics are started after the send. *)
Definition metrics_started (tr : list StreamEvent) : bool :=
  existsb (fun e => match e with start_processing_metrics => true | _ => false end) tr.

Definition is_nonfatal_error (f : OutFrame) : bool :=
  match f with ErrorFrame _ false => true | _ => false end.

Definition disconnected (s : t) : bool :=
  negb (is_some (_ws_client s)) && negb (is_some (_receive_task s)).

End AWSTranscribeStreaming.

Module AwsTrace.

Import AWSTranscribeSTTService.

Fixpoint sleeps (tr : list Event) : nat :=
  match tr with
  | [] => O
  | sleep _ :: rest => Datatypes.S (sleeps rest)
  | _ :: rest => sleeps rest
  end.

Definition supported (l : Language) : bool :=
  match l with OtherLanguage _ => false | _ => true end.

(** The sample rates handed to [websocket_connect], in order. *)
Definition connect_rates (tr : list Event) : list Z :=
  flat_map (fun e => match e with websocket_connect _ r => [r] | _ => [] end) tr.

End AwsTrace.

(** ** StatementJudgeContextFilter (the example's first processor) *)

Module StatementJudgeContextFilter.

(** A message of the LLM context: a role and a content that is a string, a
    list of typed parts, or something else. *)
Record Part : Type := { part_type : string; part_text : string }.

Inductive Content : Type :=
| Str (s : string)
| Parts (l : list Part)
| OtherContent.

Record Message : Type := { role : string; content : Content }.

(** The frames the filter tells apart; [plain] is any frame of another class. *)
Inductive InFrame : Type :=
| plain (f : Frame)
| LLMMessagesFrame (messages : list Message)
| OpenAILLMContextFrame (messages : list Message).

Inductive Event : Type :=
| super_process_frame (f : InFrame) (d : FrameDirection)
| push_frame (f : InFrame) (d : FrameDirection)
| notify.

Definition classifier_statement : string :=
  "Determine if the user's statement ends with a complete thought and you should respond. The user text is transcribed speech. It may contain multiple fragments concatentated together. You are trying to determine only the completeness of the last user statement. The previous assistant statement is provided only for context. Categorize the text as either complete with the user now expecting a response, or incomplete. Return 'YES' if text is likely complete and the user is expecting a response. Return 'NO' if the text seems to be a partial expression or unfinished thought.".

(** The [for message in reversed(messages)] loop with its [break], over the
    messages still to visit; the result is [user_text_messages] and
    [last_assistant_message]. *)
Fixpoint scan (reversed : list Message) (user_text_messages : list string)
  : list string * option Message :=
  match reversed with
  | [] => (user_text_messages, None)
  | message :: rest =>
      if negb (String.eqb (role message) "user") then
        (user_text_messages,
         if String.eqb (role message) "assistant" then Some message else None)
      else
        scan rest
          match content message with
          | Str s => user_text_messages ++ [s]
          | Parts l =>
              fold_left
                (fun acc c =>
                   if String.eqb (part_type c) "text" then part_text c :: acc else acc)
                l user_text_messages
          | OtherContent => user_text_messages
          end
  end.

(** The messages of the frame pushed for a context, if one is pushed. *)
Definition judge (messages : list Message) : option (list Message) :=
  let '(user_text_messages, last_assistant_message) := scan (rev messages) [] in
  match user_text_messages with
  | [] => None
  | _ =>
      let user_message := String.concat " " (rev user_text_messages) in
      Some ([{| role := "system"; content := Str classifier_statement |}]
              ++ match last_assistant_message with
                 | Some m => [m]
                 | None => []
                 end
              ++ [{| role := "user"; content := Str user_message |}])
  end.

Section Hierarchy.

(** [isinstance(frame, SystemFrame)] *)
Variable isinstance_SystemFrame : InFrame -> bool.

Definition process_frame (frame : InFrame) (direction : FrameDirection)
  : M unit Event unit :=
  emit (super_process_frame frame direction) ;;
  (* We must not block system frames. *)
  if isinstance_SystemFrame frame then emit (push_frame frame direction)
  else
    match frame with
    (* Just treat an LLMMessagesFrame as complete, no matter what. *)
    | LLMMessagesFrame _ => emit notify
    | OpenAILLMContextFrame messages =>
        match judge messages with
        | Some out => emit (push_frame (LLMMessagesFrame out) DOWNSTREAM)
        | None => ret tt
        end
    | plain _ => ret tt
    end.

End Hierarchy.

(** *** Observations *)

Definition is_user (m : Message) : bool := String.eqb (role m) "user".

(** The texts of a message of string content. *)
Definition said (m : Message) : list string :=
  match content m with Str s => [s] | _ => [] end.

(** The texts of the text parts of a message of list content, in order. *)
Definition parts_said (m : Message) : list string :=
  match content m with
  | Parts l =>
      flat_map (fun c => if String.eqb (part_type c) "text" then [part_text c] else []) l
  | _ => []
  end.

(** The message just before the trailing user messages, if it is the
    assistant's. *)
Definition assistant_before (before : list Message) : option Message :=
  match rev before with
  | m :: _ => if String.eqb (role m) "assistant" then Some m else None
  | [] => None
  end.

End StatementJudgeContextFilter.

(** ** The audio task when a collaborator's call raises

    The filter and the two analyzers are awaited outside any [try]: an
    exception of one of their calls leaves [_audio_task_handler].  The
    audio loop is written out once more with these calls able to raise; when
    none does it is the loop above. *)

Module AudioTask.

Import BaseInputTransport.

(** How the calls made for one audio frame end: each returns its answer
    or raises. *)
Record Calls : Type := {
  filter_raises : option Exn;
  vad_raises : option Exn;
  end_of_turn_raises : option Exn;
  answers : Answers
}.

Definition _vad_analyze (audio : bytes) (c : Calls) : Method VADState :=
  p <- gets _params ;;
  match vad_analyzer p with
  | Some _ =>
      ex <- gets _executor ;;
      emit (run_in_executor ex (vad_analyze_audio audio)) ;;
      match vad_raises c with
      | Some e => raise e
      | None => ret (vad_says (answers c))
      end
  | None => ret QUIET
  end.

Definition _handle_vad (audio : bytes) (vad_state : VADState) (c : Calls)
  : Method VADState :=
  new_vad_state <- _vad_analyze audio c ;;
  if negb (VADState_eqb new_vad_state vad_state)
     && negb (VADState_eqb new_vad_state STARTING)
     && negb (VADState_eqb new_vad_state STOPPING)
  then
    let frame :=
      match new_vad_state with
      | SPEAKING => Some (UserStartedSpeakingFrame false)
      | QUIET => Some (UserStoppedSpeakingFrame false)
      | _ => None
      end in
    match frame with
    | Some f => _handle_user_interruption f
    | None => ret tt
    end ;;
    ret new_vad_state
  else ret vad_state.

Definition _end_of_turn_analyze (audio : bytes) (is_speech : bool) (c : Calls)
  : Method EndOfTurnState :=
  p <- gets _params ;;
  match end_of_turn_analyzer p with
  | Some _ =>
      ex <- gets _executor ;;
      emit (run_in_executor ex (end_of_turn_analyze_audio audio is_speech)) ;;
      match end_of_turn_raises c with
      | Some e => raise e
      | None => ret (end_of_turn_says (answers c) is_speech)
      end
  | None => ret INCOMPLETE
  end.

Definition _handle_end_of_turn (audio : bytes) (end_of_turn_state : EndOfTurnState)
  (is_speech : bool) (c : Calls) : Method EndOfTurnState :=
  new_eot_state <- _end_of_turn_analyze audio is_speech c ;;
  when (negb (EndOfTurnState_eqb new_eot_state end_of_turn_state))
       (_handle_user_interruption UserEndOfTurnFrame) ;;
  ret new_eot_state.

Definition _audio_task_iteration (audio : bytes) (c : Calls)
  (vad_state : VADState) (end_of_turn_state : EndOfTurnState)
  : Method (VADState * EndOfTurnState) :=
  p <- gets _params ;;
  (* If an audio filter is available, run it before VAD. *)
  audio <- match audio_in_filter p with
           | Some _ =>
               emit (filter_filter audio) ;;
               match filter_raises c with
               | Some e => raise e
               | None => ret (filtered (answers c))
               end
           | None => ret audio
           end ;;
  (* Check VAD and push event if necessary. *)
  va <- (if vad_enabled p
         then v <- _handle_vad audio vad_state c ;; ret (v, vad_audio_passthrough p)
         else ret (vad_state, true)) ;;
  let vad_state := fst va in
  let audio_passthrough := snd va in
  end_of_turn_state <-
    match end_of_turn_analyzer p with
    | Some _ =>
        let is_speech := VADState_eqb vad_state SPEAKING || VADState_eqb vad_state STARTING in
        _handle_end_of_turn audio end_of_turn_state is_speech c
    | None => ret end_of_turn_state
    end ;;
  (* Push audio downstream if passthrough. *)
  when audio_passthrough (emit (push_frame (InputAudioRawFrame audio) DOWNSTREAM)) ;;
  emit queue_task_done ;;
  ret (vad_state, end_of_turn_state).

Fixpoint _audio_task_loop (inputs : list (bytes * Calls))
  (vad_state : VADState) (end_of_turn_state : EndOfTurnState)
  : Method (VADState * EndOfTurnState) :=
  match inputs with
  | [] => ret (vad_state, end_of_turn_state)
  | (audio, c) :: rest =>
      st <- _audio_task_iteration audio c vad_state end_of_turn_state ;;
      _audio_task_loop rest (fst st) (snd st)
  end.

Definition _audio_task_handler (inputs : list (bytes * Calls))
  : Method (VADState * EndOfTurnState) :=
  _audio_task_loop inputs QUIET INCOMPLETE.

(** *** Observations *)





End AudioTask.

(** ** The speaking transitions as the specification describes them

    Not taken from the code: a transition frame belongs to an edge whose new
    state is SPEAKING or QUIET and differs from the state tracked so far;
    STARTING and STOPPING produce nothing and are not tracked.  The audio
    input loop is compared with this description below. *)

Definition described_transition (tracked new : VADState) : list Frame :=
  match new with
  | SPEAKING =>
      if VADState_eqb tracked SPEAKING then [] else [UserStartedSpeakingFrame false]
  | QUIET =>
      if VADState_eqb tracked QUIET then [] else [UserStoppedSpeakingFrame false]
  | STARTING | STOPPING => []
  end.

Definition described_tracking (tracked new : VADState) : VADState :=
  match new with
  | SPEAKING | QUIET => new
  | STARTING | STOPPING => tracked
  end.

Fixpoint described_transitions (tracked : VADState) (news : list VADState) : list Frame :=
  match news with
  | [] => []
  | new :: rest =>
      described_transition tracked new
        ++ described_transitions (described_tracking tracked new) rest
  end.

(** * Properties *)

(** ** Running methods *)

Lemma bind_run S E A B (c : M S E A) (k : A -> M S E B) s a s1 t1 :
  c s = (Returned a, s1, t1) ->
  bind c k s = (result_of (k a s1), state_of (k a s1), t1 ++ trace_of (k a s1)).
Proof.
  intros H. unfold bind, result_of, state_of, trace_of. rewrite H.
  destruct (k a s1) as [[r s2] t2]. reflexivity.
Qed.

Lemma run_eta S E A (r : Outcome A * S * list E) :
  r = (result_of r, state_of r, trace_of r).
Proof. destruct r as [[o s] t]. reflexivity. Qed.

(** ** OutputGate *)

Section OutputGateProperties.

Import OutputGate.

Variable is_sys : Frame -> bool.

Lemma pushed_app tr1 tr2 : pushed (tr1 ++ tr2) = pushed tr1 ++ pushed tr2.
Proof.
  induction tr1 as [|e tr1 IH]; [reflexivity|].
  destruct e; simpl; rewrite IH; reflexivity.
Qed.

(** A frame that is neither a system frame nor a function-call frame and
    travels downstream into a closed gate is appended to the buffer and
    nothing is pushed. *)
Lemma process_frame_closed f g :
  is_sys f = false -> is_function_call_frame f = false -> _gate_open g = false ->
  process_frame is_sys f DOWNSTREAM g =
    (Returned tt, set_frames_buffer (_frames_buffer g ++ [(f, DOWNSTREAM)]) g,
     [super_process_frame f DOWNSTREAM]).
Proof.
  intros Hs Hf Hc. unfold process_frame.
  rewrite Hs, Hf. cbn. rewrite Hc. reflexivity.
Qed.

Lemma run_closed frames : forall g,
  _gate_open g = false ->
  Forall (fun f => is_sys f = false /\ is_function_call_frame f = false) frames ->
  run is_sys (map (fun f => Deliver f DOWNSTREAM) frames) g =
    (Returned tt,
     set_frames_buffer (_frames_buffer g ++ map (fun f => (f, DOWNSTREAM)) frames) g,
     map (fun f => super_process_frame f DOWNSTREAM) frames).
Proof.
  induction frames as [|f frames IH]; intros g Hc Hall.
  - unfold run; simpl. unfold ret. rewrite app_nil_r. destruct g; reflexivity.
  - inversion Hall as [|? ? [Hs Hf] Hrest]; subst.
    unfold run in *; simpl.
    erewrite bind_run by (apply process_frame_closed; assumption).
    rewrite IH by (auto; destruct g; assumption).
    unfold result_of, state_of, trace_of; simpl.
    destruct g; unfold set_frames_buffer; simpl.
    rewrite <- app_assoc. reflexivity.
Qed.

(** The flush pushes the pairs it is given, in order, and touches nothing. *)
Lemma flush_pushes buffer : forall g,
  for_each buffer (fun fd => emit (S:=t) (push_frame (fst fd) (snd fd))) g =
    (Returned tt, g, map (fun fd => push_frame (fst fd) (snd fd)) buffer).
Proof.
  induction buffer as [|fd buffer IH]; intros g; [reflexivity|].
  simpl. unfold bind at 1. unfold emit at 1. rewrite IH. reflexivity.
Qed.

Lemma pushed_map_push buffer :
  pushed (map (fun fd => push_frame (fst fd) (snd fd)) buffer) = buffer.
Proof.
  induction buffer as [|[f d] buffer IH]; [reflexivity|].
  simpl. rewrite IH. reflexivity.
Qed.

Lemma gate_task_wake_run g :
  _gate_task_wake g =
    (Returned tt, mk true [] (_gate_task g),
     map (fun fd => push_frame (fst fd) (snd fd)) (_frames_buffer g)).
Proof.
  unfold _gate_task_wake, open_gate.
  unfold bind at 1. unfold modify at 1.
  unfold bind at 1. unfold gets at 1.
  unfold bind at 1. rewrite flush_pushes.
  unfold modify, set_frames_buffer, set_gate_open. simpl.
  rewrite app_nil_r. reflexivity.
Qed.

End OutputGateProperties.

(** C1 (as amended).  Whatever the gate holds, a StartInterruptionFrame
    (a system frame) empties the buffer and closes the gate within the call
    that forwards it.  A notifier signal that follows wakes the task the
    gate holds; the woken task flushes no frame, and it does not leave the
    gate closed: it opens it, so after the signal the gate is open. *)
Theorem output_gate_interruption_then_notifier
  (is_sys : Frame -> bool) (g : OutputGate.t) (d : FrameDirection) (k : Task) :
  is_sys StartInterruptionFrame = true ->
  OutputGate._gate_task g = Some k ->
  let interrupted := OutputGate.process_frame is_sys StartInterruptionFrame d g in
  let fired := OutputGate.step is_sys OutputGate.NotifierFires (state_of interrupted) in
  result_of interrupted = Returned tt /\
  OutputGate._frames_buffer (state_of interrupted) = [] /\
  OutputGate._gate_open (state_of interrupted) = false /\
  OutputGate.pushed (trace_of interrupted) = [(StartInterruptionFrame, d)] /\
  OutputGate._gate_task (state_of interrupted) = Some k /\
  result_of fired = Returned tt /\
  OutputGate.pushed (trace_of fired) = [] /\
  OutputGate._frames_buffer (state_of fired) = [] /\
  OutputGate._gate_open (state_of fired) = true.
Proof.
  intros Hsys Htask interrupted fired.
  assert (Hi : interrupted =
               (Returned tt, OutputGate.mk false [] (Some k),
                [OutputGate.super_process_frame StartInterruptionFrame d;
                 OutputGate.push_frame StartInterruptionFrame d])).
  { subst interrupted. unfold OutputGate.process_frame. rewrite Hsys.
    destruct g as [o b t]. cbn in Htask. subst t. reflexivity. }
  subst fired. rewrite Hi. cbn [state_of result_of trace_of fst snd].
  repeat split; reflexivity.
Qed.

Lemma output_gate_interruption_then_notifier_witness :
  let g := OutputGate.mk false
             [(TextFrame "a", DOWNSTREAM); (TextFrame "b", DOWNSTREAM)]
             (Some gate_task_handler) in
  let interrupted :=
    OutputGate.process_frame frames_SystemFrame StartInterruptionFrame DOWNSTREAM g in
  let fired :=
    OutputGate.step frames_SystemFrame OutputGate.NotifierFires (state_of interrupted) in
  OutputGate._frames_buffer (state_of interrupted) = [] /\
  OutputGate.pushed (trace_of fired) = [] /\
  OutputGate._gate_open (state_of fired) = true.
Proof.
  intros g interrupted fired.
  destruct (@output_gate_interruption_then_notifier frames_SystemFrame g DOWNSTREAM
              gate_task_handler eq_refl eq_refl)
    as (_ & Hb & _ & _ & _ & _ & Hp & _ & Ho).
  repeat split; assumption.
Defined.

(** C1 as stated fails: a gate that starts closed is started, takes three
    data frames, is interrupted, and then the notifier fires.  Nothing is
    flushed, but the gate does not remain closed. *)
Lemma output_gate_open_after_interruption_and_notifier :
  let before :=
    OutputGate.run frames_SystemFrame
      [OutputGate.Deliver (StartFrame 16000) DOWNSTREAM;
       OutputGate.Deliver (TextFrame "one") DOWNSTREAM;
       OutputGate.Deliver (TextFrame "two") DOWNSTREAM;
       OutputGate.Deliver (TextFrame "three") DOWNSTREAM]
      (OutputGate.init false) in
  let interrupted :=
    OutputGate.process_frame frames_SystemFrame StartInterruptionFrame DOWNSTREAM
      (state_of before) in
  let fired :=
    OutputGate.step frames_SystemFrame OutputGate.NotifierFires (state_of interrupted) in
  OutputGate._gate_open (state_of before) = false /\
  List.length (OutputGate._frames_buffer (state_of before)) = 3%nat /\
  OutputGate._frames_buffer (state_of interrupted) = [] /\
  OutputGate._gate_open (state_of interrupted) = false /\
  ~ (OutputGate.pushed (trace_of fired) = [] /\
     OutputGate._gate_open (state_of fired) = false).
Proof.
  cbv zeta. repeat split; try reflexivity.
  intros [_ H]. vm_compute in H. discriminate H.
Qed.

(** C3.  In every gate state, open or closed, with any buffer: a system
    frame, and a FunctionCallInProgressFrame or FunctionCallResultFrame, is
    pushed on in the call that receives it, in the direction it came with,
    and it is the only frame pushed; the buffer is left as it was or is
    emptied, it never grows. *)
Theorem output_gate_system_and_function_call_frames_pass
  (is_sys : Frame -> bool) (g : OutputGate.t) (f : Frame) (d : FrameDirection) :
  is_sys f = true \/ OutputGate.is_function_call_frame f = true ->
  let r := OutputGate.process_frame is_sys f d g in
  result_of r = Returned tt /\
  OutputGate.pushed (trace_of r) = [(f, d)] /\
  (OutputGate._frames_buffer (state_of r) = OutputGate._frames_buffer g \/
   OutputGate._frames_buffer (state_of r) = []).
Proof.
  intros H r. subst r. unfold OutputGate.process_frame.
  destruct (is_sys f) eqn:Hs.
  - destruct g as [o b [k|]]; destruct f; cbn; auto.
  - destruct H as [H|H]; [discriminate H|]. rewrite H.
    destruct g as [o b k]; cbn; auto.
Qed.

Lemma output_gate_system_and_function_call_frames_pass_witness :
  let g := OutputGate.mk false [(TextFrame "held", DOWNSTREAM)] (Some gate_task_handler) in
  let r := OutputGate.process_frame frames_SystemFrame (FunctionCallResultFrame 7) DOWNSTREAM g in
  OutputGate.pushed (trace_of r) = [(FunctionCallResultFrame 7, DOWNSTREAM)] /\
  (OutputGate._frames_buffer (state_of r) = [(TextFrame "held", DOWNSTREAM)] \/
   OutputGate._frames_buffer (state_of r) = []).
Proof.
  intros g r.
  destruct (output_gate_system_and_function_call_frames_pass frames_SystemFrame g
              (FunctionCallResultFrame 7) DOWNSTREAM (or_intror eq_refl)) as (_ & Hp & Hb).
  split; assumption.
Defined.

(** C6.  A closed gate that receives, downstream, any sequence of frames
    that are neither system frames nor function-call frames pushes none of
    them and appends each to its buffer, in order of arrival, staying
    closed.  When the gate task is then woken by the notifier, it pushes
    the whole buffer in arrival order (what was buffered before, then the
    sequence), and leaves the buffer empty and the gate open. *)
Theorem output_gate_buffers_then_flushes_in_order
  (is_sys : Frame -> bool) (g : OutputGate.t) (frames : list Frame) :
  OutputGate._gate_open g = false ->
  Forall (fun f => is_sys f = false /\ OutputGate.is_function_call_frame f = false) frames ->
  let held := OutputGate.run is_sys (map (fun f => OutputGate.Deliver f DOWNSTREAM) frames) g in
  let opened := OutputGate._gate_task_wake (state_of held) in
  let arrived := OutputGate._frames_buffer g ++ map (fun f => (f, DOWNSTREAM)) frames in
  result_of held = Returned tt /\
  OutputGate.pushed (trace_of held) = [] /\
  OutputGate._frames_buffer (state_of held) = arrived /\
  OutputGate._gate_open (state_of held) = false /\
  result_of opened = Returned tt /\
  OutputGate.pushed (trace_of opened) = arrived /\
  OutputGate._frames_buffer (state_of opened) = [] /\
  OutputGate._gate_open (state_of opened) = true.
Proof.
  intros Hc Hall held opened arrived.
  subst opened held. rewrite run_closed by assumption.
  cbn [state_of result_of trace_of fst snd].
  rewrite gate_task_wake_run.
  cbn [state_of result_of trace_of fst snd].
  repeat split; try reflexivity.
  - induction frames as [|f fs IH]; [reflexivity|].
    inversion Hall; subst. simpl. auto.
  - destruct g; assumption.
  - destruct g; simpl. apply pushed_map_push.
Qed.

Lemma output_gate_buffers_then_flushes_in_order_witness :
  let frames := [TextFrame "one"; TextFrame "two"; OtherFrame 3 0] in
  let g := OutputGate.mk false [] (Some gate_task_handler) in
  let held :=
    OutputGate.run frames_SystemFrame
      (map (fun f => OutputGate.Deliver f DOWNSTREAM) frames) g in
  let opened := OutputGate._gate_task_wake (state_of held) in
  OutputGate.pushed (trace_of held) = [] /\
  OutputGate.pushed (trace_of opened) =
    [(TextFrame "one", DOWNSTREAM); (TextFrame "two", DOWNSTREAM);
     (OtherFrame 3 0, DOWNSTREAM)] /\
  OutputGate._frames_buffer (state_of opened) = [].
Proof.
  intros frames g held opened.
  assert (Hall : Forall (fun f => frames_SystemFrame f = false /\
                                  OutputGate.is_function_call_frame f = false) frames).
  { repeat constructor. }
  destruct (output_gate_buffers_then_flushes_in_order frames_SystemFrame g eq_refl Hall)
    as (_ & Hp & _ & _ & _ & Hf & Hb & _).
  repeat split; assumption.
Defined.

(** ** BaseInputTransport *)

(** Case analysis on the answers of the end-of-turn analyzer that a goal
    mentions. *)
Ltac answer_cases es :=
  repeat match goal with
         | |- context [es ?b] => destruct (es b) eqn:?
         end.

Section InputTransportProperties.

Import BaseInputTransport.

Lemma pushed_frames_app p tr1 tr2 :
  pushed_frames p (tr1 ++ tr2) = pushed_frames p tr1 ++ pushed_frames p tr2.
Proof.
  unfold pushed_frames.
  assert (H : pushed (tr1 ++ tr2) = pushed tr1 ++ pushed tr2).
  { induction tr1 as [|e tr1 IH]; [reflexivity|].
    destruct e; simpl; rewrite IH; reflexivity. }
  rewrite H, map_app, filter_app. reflexivity.
Qed.

(** Case analysis on everything a loop iteration branches on. *)
Ltac iteration_cases s a :=
  destruct s as [[aie air [fl|] chunks ve vap [va|] [ea|]] sr ex task q ia];
  destruct a as [fa vs es];
  cbn [_params vad_enabled vad_analyzer end_of_turn_analyzer audio_in_filter
       interruptions_allowed _executor vad_says end_of_turn_says filtered] in *.

(** With VAD enabled and an analyzer present, one iteration of the loop
    returns, leaves the transport as it was, pushes the transition the
    description gives for the analyzer's answer, and tracks accordingly. *)
Lemma iteration_vad audio a v e s x :
  vad_enabled (_params s) = true ->
  vad_analyzer (_params s) = Some x ->
  let r := _audio_task_iteration audio a v e s in
  exists e', result_of r = Returned (described_tracking v (vad_says a), e') /\
  state_of r = s /\
  pushed_frames is_speaking_transition (trace_of r) = described_transition v (vad_says a).
Proof.
  intros Hve Hva.
  iteration_cases s a; try discriminate; subst.
  all: destruct v, vs, ia, vap, e; cbv; answer_cases es;
    eexists; repeat split; reflexivity.
Qed.

(** The same along the loop, from any tracked states. *)
Lemma loop_vad s x inputs :
  vad_enabled (_params s) = true ->
  vad_analyzer (_params s) = Some x ->
  forall v e,
  let r := _audio_task_loop inputs v e s in
  (exists ve, result_of r = Returned ve) /\
  state_of r = s /\
  pushed_frames is_speaking_transition (trace_of r) =
    described_transitions v (map (fun i => vad_says (snd i)) inputs).
Proof.
  intros Hve Hva.
  induction inputs as [|[audio a] inputs IH]; intros v e.
  - cbn. repeat split. eexists; reflexivity.
  - destruct (iteration_vad audio a v e s Hve Hva) as (e' & Hr & Hs & Hp).
    pose proof (run_eta (_audio_task_iteration audio a v e s)) as Heta.
    rewrite Hr, Hs in Heta.
    cbn [_audio_task_loop map snd described_transitions].
    erewrite bind_run by exact Heta.
    cbn [fst snd result_of state_of trace_of].
    destruct (IH (described_tracking v (vad_says a)) e') as (Hr' & Hs' & Hp').
    repeat split.
    + exact Hr'.
    + exact Hs'.
    + rewrite pushed_frames_app. fold (trace_of (_audio_task_iteration audio a v e s)).
      rewrite Hp. f_equal. exact Hp'.
Qed.


End InputTransportProperties.

(** C2.  With VAD enabled and an analyzer configured, whatever sequence of
    states the analyzer produces: the speaking-transition frames the audio
    input loop pushes are those of the description, one for each edge whose
    new state is SPEAKING or QUIET and differs from the tracked state; for a
    single audio frame a transition frame is pushed exactly on such an edge,
    so never for STARTING or STOPPING; and a run of the task on
    QUIET, STARTING, SPEAKING pushes exactly one UserStartedSpeakingFrame
    and no other transition frame. *)
Theorem audio_loop_speaking_transitions
  (s : BaseInputTransport.t) (x : BaseInputTransport.VADAnalyzer)
  (inputs : list (bytes * BaseInputTransport.Answers))
  (v : VADState) (e : EndOfTurnState)
  (audio : bytes) (a : BaseInputTransport.Answers) :
  BaseInputTransport.vad_enabled (BaseInputTransport._params s) = true ->
  BaseInputTransport.vad_analyzer (BaseInputTransport._params s) = Some x ->
  let says := map (fun i : bytes * BaseInputTransport.Answers =>
                     BaseInputTransport.vad_says (snd i)) in
  let transitions :=
    BaseInputTransport.pushed_frames BaseInputTransport.is_speaking_transition in
  transitions (trace_of (BaseInputTransport._audio_task_loop inputs v e s))
    = described_transitions v (says inputs) /\
  (transitions (trace_of (BaseInputTransport._audio_task_iteration audio a v e s)) <> []
   <-> (BaseInputTransport.vad_says a = SPEAKING \/ BaseInputTransport.vad_says a = QUIET)
       /\ BaseInputTransport.vad_says a <> v) /\
  (forall run, says run = [QUIET; STARTING; SPEAKING] ->
     transitions (trace_of (BaseInputTransport._audio_task_handler run s))
       = [UserStartedSpeakingFrame false]).
Proof.
  intros Hve Hva says transitions. subst says transitions. cbv beta.
  split; [|split].
  - apply (loop_vad s inputs Hve Hva v e).
  - destruct (iteration_vad audio a v e s Hve Hva) as (_ & _ & _ & Hp).
    rewrite Hp. clear Hp.
    destruct v, (BaseInputTransport.vad_says a); cbn; split;
      try (intros H; exfalso; apply H; reflexivity);
      try (intros [[H|H] H']; try discriminate H; exfalso; apply H'; reflexivity);
      try (intros _; split; [auto | discriminate]);
      try (intros _; discriminate).
  - intros run Hrun.
    unfold BaseInputTransport._audio_task_handler.
    destruct (loop_vad s run Hve Hva QUIET INCOMPLETE) as (_ & _ & Hp).
    rewrite Hp, Hrun. reflexivity.
Qed.

Lemma audio_loop_speaking_transitions_witness :
  let params :=
    {| BaseInputTransport.audio_in_enabled := true;
       BaseInputTransport.audio_in_sample_rate := None;
       BaseInputTransport.audio_in_filter := None;
       BaseInputTransport.audio_out_10ms_chunks := 4;
       BaseInputTransport.vad_enabled := true;
       BaseInputTransport.vad_audio_passthrough := true;
       BaseInputTransport.vad_analyzer := Some BaseInputTransport.a_vad_analyzer;
       BaseInputTransport.end_of_turn_analyzer := None |} in
  let s := BaseInputTransport.init params true in
  let hears v := (@nil Byte.byte,
                  {| BaseInputTransport.filtered := [];
                     BaseInputTransport.vad_says := v;
                     BaseInputTransport.end_of_turn_says := fun _ => INCOMPLETE |}) in
  BaseInputTransport.pushed_frames BaseInputTransport.is_speaking_transition
    (trace_of (BaseInputTransport._audio_task_handler
                 [hears QUIET; hears STARTING; hears SPEAKING] s))
  = [UserStartedSpeakingFrame false].
Proof.
  intros params s hears.
  exact (proj2 (proj2 (audio_loop_speaking_transitions s [] QUIET INCOMPLETE []
                         (snd (hears QUIET)) eq_refl eq_refl))
           [hears QUIET; hears STARTING; hears SPEAKING] eq_refl).
Defined.

(** C4.  With interruptions allowed (and a VAD analyzer to report the
    transition): when the analyzer goes from QUIET to SPEAKING the transport
    pushes a UserStartedSpeakingFrame and a StartInterruptionFrame, and so
    it does for an EmulateUserStartedSpeakingFrame; when the analyzer goes
    from SPEAKING to QUIET, or on an EmulateUserStoppedSpeakingFrame, it
    pushes a UserStoppedSpeakingFrame and a StopInterruptionFrame. *)
Theorem input_transport_interruption_frames
  (is_sys : Frame -> bool) (s : BaseInputTransport.t)
  (x : BaseInputTransport.VADAnalyzer) (d : FrameDirection)
  (audio fa : bytes) (es : bool -> EndOfTurnState) :
  BaseInputTransport.interruptions_allowed s = true ->
  BaseInputTransport.vad_analyzer (BaseInputTransport._params s) = Some x ->
  let hears v := {| BaseInputTransport.filtered := fa;
                    BaseInputTransport.vad_says := v;
                    BaseInputTransport.end_of_turn_says := es |} in
  BaseInputTransport.pushed
    (trace_of (BaseInputTransport._handle_vad audio QUIET (hears SPEAKING) s))
    = [(UserStartedSpeakingFrame false, DOWNSTREAM); (StartInterruptionFrame, DOWNSTREAM)] /\
  BaseInputTransport.pushed
    (trace_of (BaseInputTransport.process_frame is_sys EmulateUserStartedSpeakingFrame d s))
    = [(UserStartedSpeakingFrame true, DOWNSTREAM); (StartInterruptionFrame, DOWNSTREAM)] /\
  BaseInputTransport.pushed
    (trace_of (BaseInputTransport._handle_vad audio SPEAKING (hears QUIET) s))
    = [(UserStoppedSpeakingFrame false, DOWNSTREAM); (StopInterruptionFrame, DOWNSTREAM)] /\
  BaseInputTransport.pushed
    (trace_of (BaseInputTransport.process_frame is_sys EmulateUserStoppedSpeakingFrame d s))
    = [(UserStoppedSpeakingFrame true, DOWNSTREAM); (StopInterruptionFrame, DOWNSTREAM)].
Proof.
  intros Hia Hva hears. subst hears.
  destruct s as [p sr ex task q ia]. destruct p. cbn in Hia, Hva. subst.
  repeat split; reflexivity.
Qed.

Lemma input_transport_interruption_frames_witness :
  let params :=
    {| BaseInputTransport.audio_in_enabled := true;
       BaseInputTransport.audio_in_sample_rate := Some 16000;
       BaseInputTransport.audio_in_filter := None;
       BaseInputTransport.audio_out_10ms_chunks := 4;
       BaseInputTransport.vad_enabled := true;
       BaseInputTransport.vad_audio_passthrough := false;
       BaseInputTransport.vad_analyzer := Some BaseInputTransport.a_vad_analyzer;
       BaseInputTransport.end_of_turn_analyzer := None |} in
  let s := BaseInputTransport.init params true in
  BaseInputTransport.pushed
    (trace_of (BaseInputTransport.process_frame frames_SystemFrame
                 EmulateUserStartedSpeakingFrame DOWNSTREAM s))
  = [(UserStartedSpeakingFrame true, DOWNSTREAM); (StartInterruptionFrame, DOWNSTREAM)].
Proof.
  intros params s.
  exact (proj1 (proj2 (input_transport_interruption_frames frames_SystemFrame s
                         DOWNSTREAM [] [] (fun _ => INCOMPLETE) eq_refl eq_refl))).
Defined.

(** C5.  In [process_frame], after the base class bookkeeping, the first
    thing done with a StartFrame is to push it on, in the direction it
    travels, and only then does [start] run; likewise an EndFrame is pushed
    on before [stop] runs (which cancels the audio task), [stop] running
    only where EndFrame is not dispatched as a system frame.  Neither
    [start] nor [stop] pushes a frame, so the neighbour gets the StartFrame
    or EndFrame ahead of everything the lifecycle routine does. *)
Theorem input_transport_pushes_before_lifecycle
  (is_sys : Frame -> bool) (s : BaseInputTransport.t) (d : FrameDirection) (rate : Z) :
  let started := BaseInputTransport.process_frame is_sys (StartFrame rate) d s in
  let ended := BaseInputTransport.process_frame is_sys EndFrame d s in
  let no_push := forallb (fun e => negb (BaseInputTransport.is_push e)) in
  trace_of started =
    BaseInputTransport.super_process_frame (StartFrame rate) d
      :: BaseInputTransport.push_frame (StartFrame rate) d
      :: trace_of (BaseInputTransport.start rate s) /\
  state_of started = state_of (BaseInputTransport.start rate s) /\
  no_push (trace_of (BaseInputTransport.start rate s)) = true /\
  trace_of ended =
    BaseInputTransport.super_process_frame EndFrame d
      :: BaseInputTransport.push_frame EndFrame d
      :: (if is_sys EndFrame then [] else trace_of (BaseInputTransport.stop s)) /\
  state_of ended = (if is_sys EndFrame then s else state_of (BaseInputTransport.stop s)) /\
  no_push (trace_of (BaseInputTransport.stop s)) = true.
Proof.
  cbv zeta.
  destruct s as [[aie air [fl|] chunks ve vap [va|] [ea|]] sr ex [task|] q ia];
    destruct (is_sys EndFrame) eqn:Hsys;
    unfold BaseInputTransport.process_frame; rewrite ?Hsys;
    destruct aie, ve; repeat split; reflexivity.
Qed.

(** C7 (as amended).  For a transport in any state, deliver a StartFrame
    and then the same StartFrame again.  The second delivery creates neither
    queue nor task (over both deliveries at most one of each is created) and
    leaves the transport exactly as the first left it.  It does configure
    again: the calls that set the analyzers' sample rate and chunk size and
    start the filter are made a second time, with the same values. *)
Theorem input_transport_second_start
  (is_sys : Frame -> bool) (s : BaseInputTransport.t) (d : FrameDirection) (rate : Z) :
  let first := BaseInputTransport.process_frame is_sys (StartFrame rate) d s in
  let second := BaseInputTransport.process_frame is_sys (StartFrame rate) d (state_of first) in
  let created tr := filter BaseInputTransport.is_creation tr in
  let configured tr := filter BaseInputTransport.is_configuration tr in
  result_of first = Returned tt /\
  result_of second = Returned tt /\
  created (trace_of second) = [] /\
  (created (trace_of first) = [] \/
   created (trace_of first) =
     [BaseInputTransport.create_queue; BaseInputTransport.create_task audio_task_handler]) /\
  state_of second = state_of first /\
  configured (trace_of second) = configured (trace_of first).
Proof.
  cbv zeta.
  destruct s as [[aie air [fl|] chunks ve vap [va|] [ea|]] sr ex [task|] q ia];
    unfold BaseInputTransport.process_frame;
    destruct aie, ve; cbn; repeat split; auto.
Qed.

(** C7 as stated fails: with VAD enabled and an analyzer configured, the
    second StartFrame sets the analyzer's sample rate again, so the
    configuration is made twice in a session, not once. *)
Lemma input_transport_second_start_configures_again :
  let params :=
    {| BaseInputTransport.audio_in_enabled := true;
       BaseInputTransport.audio_in_sample_rate := None;
       BaseInputTransport.audio_in_filter := None;
       BaseInputTransport.audio_out_10ms_chunks := 4;
       BaseInputTransport.vad_enabled := true;
       BaseInputTransport.vad_audio_passthrough := true;
       BaseInputTransport.vad_analyzer := Some BaseInputTransport.a_vad_analyzer;
       BaseInputTransport.end_of_turn_analyzer := None |} in
  let s := BaseInputTransport.init params true in
  let first :=
    BaseInputTransport.process_frame frames_SystemFrame (StartFrame 16000) DOWNSTREAM s in
  let second :=
    BaseInputTransport.process_frame frames_SystemFrame (StartFrame 16000) DOWNSTREAM
      (state_of first) in
  let configured tr := filter BaseInputTransport.is_configuration tr in
  configured (trace_of first) = [BaseInputTransport.vad_set_sample_rate 16000] /\
  configured (trace_of second) = [BaseInputTransport.vad_set_sample_rate 16000] /\
  ~ (List.length (configured (trace_of first ++ trace_of second)) = 1%nat).
Proof.
  cbv zeta. repeat split. intros H. vm_compute in H. discriminate H.
Qed.



(** ** AWSTranscribeSTTService *)

Ltac run_method :=
  unfold bind, try_except, try_finally, when, gets, get, modify, emit, ret, raise;
  cbn.

Section AwsProperties.

Import AWSTranscribeSTTService.

Variable network : nat -> Answer.

Lemma connection_attempts_app tr1 tr2 :
  connection_attempts (tr1 ++ tr2) = (connection_attempts tr1 + connection_attempts tr2)%nat.
Proof.
  induction tr1 as [|e tr1 IH]; [reflexivity|].
  destruct e; simpl; rewrite IH; reflexivity.
Qed.

(** From a ready service [_connect] makes one call of [websocket_connect].
    If that call answers with a client, the client is kept whatever its
    state and the receive task is started; if it raises, the service is
    left disconnected and the exception goes on to the caller. *)
Lemma connect_run s :
  ready s ->
  exists tr,
    connection_attempts tr = 1%nat /\
    _connect network s =
      match network (connect_calls s) with
      | Connects st =>
          (Returned tt,
           mk (_settings s) (_credentials s) (Some st) false (Some receive_loop)
              (Datatypes.S (connect_calls s)), tr)
      | Fails e =>
          (Raised e,
           mk (_settings s) (_credentials s) None false None
              (Datatypes.S (connect_calls s)), tr)
      end.
Proof.
  intros (Hlang & Hconn & Hopen).
  destruct s as [[sr lang me nc ssl eci] creds ws connecting task calls].
  cbn in Hlang, Hconn, Hopen. subst connecting.
  destruct (language_to_service_language lang) as [code|] eqn:Hcode; [|congruence].
  destruct ws as [[| | |]|]; try discriminate Hopen.
  all: destruct task as [k|].
  all: unfold _connect, _disconnect; run_method; rewrite Hcode; cbn.
  all: destruct (network calls) as [st|e]; cbn.
  all: eexists; split; [|reflexivity]; reflexivity.
Qed.

(** One turn of the retry loop from a ready service, by the answer of the
    network: an open client ends [start]; a client that is not open leads
    to the next turn with the retry counter as it was; an exception leads
    to the next turn with the counter advanced. *)
Lemma start_loop_turn fuel retry_count s :
  ready s ->
  retry_count < max_retries ->
  exists s' tr,
    start_loop network (Datatypes.S fuel) retry_count s =
      match network (connect_calls s) with
      | Connects OPEN => (Returned tt, s', tr)
      | Connects _ =>
          let rest := start_loop network fuel retry_count s' in
          (result_of rest, state_of rest, tr ++ trace_of rest)
      | Fails _ =>
          let rest := start_loop network fuel (retry_count + 1) s' in
          (result_of rest, state_of rest, tr ++ trace_of rest)
      end /\
    connection_attempts tr = 1%nat /\
    connect_calls s' = Datatypes.S (connect_calls s) /\
    match network (connect_calls s) with
    | Connects OPEN => True
    | _ => ready s'
    end.
Proof.
  intros Hready Hlt.
  destruct (connect_run Hready) as (tr & Hn & Hrun).
  pose proof Hready as (Hlang & _ & _).
  apply Z.ltb_lt in Hlt.
  cbn [start_loop]. rewrite Hlt.
  unfold bind at 1. unfold try_except at 1. unfold bind at 1. rewrite Hrun.
  destruct (network (connect_calls s)) as [st|e].
  - destruct st; run_method;
      first
        [ match goal with
          | |- context [start_loop network fuel retry_count ?s1] =>
              destruct (start_loop network fuel retry_count s1) as [[r s2] t2] eqn:Hrest;
              exists s1
          end;
          eexists; split; [rewrite Hrest; reflexivity|]
        | do 2 eexists; split; [reflexivity|] ];
      repeat rewrite connection_attempts_app; rewrite Hn;
      repeat split; exact Hlang.
  - run_method.
    destruct (retry_count + 1 <? max_retries); cbn;
      match goal with
      | |- context [start_loop network fuel (retry_count + 1) ?s1] =>
          destruct (start_loop network fuel (retry_count + 1) s1) as [[r s2] t2] eqn:Hrest;
          exists s1
      end;
      (eexists; split; [rewrite Hrest; cbn; rewrite ?app_assoc; reflexivity|]);
      repeat rewrite connection_attempts_app; rewrite Hn; repeat split; exact Hlang.
Qed.

(** When every failed attempt raises, the loop is bounded by the retry
    counter: from a counter [retry_count] it makes at most
    [max_retries - retry_count] attempts, returns as soon as one of them
    opens a connection, and raises RuntimeError when none does. *)
Lemma start_loop_bounded :
  (forall n, network n = Connects OPEN \/ exists e, network n = Fails e) ->
  forall fuel retry_count s,
  ready s ->
  0 <= retry_count <= max_retries ->
  (Z.to_nat (max_retries - retry_count) <= fuel)%nat ->
  let r := start_loop network fuel retry_count s in
  (result_of r = Returned tt \/ exists msg, result_of r = Raised (RuntimeError msg)) /\
  (connection_attempts (trace_of r) <= Z.to_nat (max_retries - retry_count))%nat /\
  (result_of r = Returned tt <->
   exists n, (n < Z.to_nat (max_retries - retry_count))%nat /\
             network (connect_calls s + n)%nat = Connects OPEN).
Proof.
  intros Hnet. unfold max_retries.
  induction fuel as [|fuel IH]; intros retry_count s Hready Hrc Hfuel.
  - assert (retry_count = 3) by lia. subst retry_count.
    cbn. split; [right; eexists; reflexivity|]. split; [lia|].
    split; [discriminate|]. intros (n & Hn & _). lia.
  - destruct (Z.ltb_spec retry_count 3) as [Hlt|Hge].
    + destruct (start_loop_turn fuel Hready Hlt) as (s' & tr & Hrun & Htr & Hcalls & Hnext).
      cbv zeta. rewrite Hrun. clear Hrun.
      destruct (Hnet (connect_calls s)) as [Ho|[e Hf]].
      * rewrite Ho. cbn [result_of state_of trace_of fst snd]. rewrite Htr. split; [left; reflexivity|]. split; [lia|].
        split; [|reflexivity]. intros _. exists 0%nat. split; [lia|].
        rewrite Nat.add_0_r. exact Ho.
      * rewrite Hf in *. cbv zeta. cbn [result_of state_of trace_of fst snd].
        assert (Hrc' : 0 <= retry_count + 1 <= 3) by lia.
        assert (Hfuel' : (Z.to_nat (3 - (retry_count + 1)) <= fuel)%nat) by lia.
        destruct (IH (retry_count + 1) s' Hnext Hrc' Hfuel') as (Hres & Hatt & Hiff).
        split; [exact Hres|]. split.
        { rewrite connection_attempts_app, Htr. lia. }
        rewrite Hiff, Hcalls. split.
        -- intros (n & Hn & Ho). exists (Datatypes.S n). split; [lia|].
           rewrite Nat.add_succ_r. exact Ho.
        -- intros (n & Hn & Ho). destruct n as [|n].
           ++ rewrite Nat.add_0_r, Hf in Ho. discriminate Ho.
           ++ exists n. split; [lia|]. rewrite Nat.add_succ_r in Ho. exact Ho.
    + assert (retry_count = 3) by lia. subst retry_count.
      cbn. split; [right; eexists; reflexivity|]. split; [lia|].
      split; [discriminate|]. intros (n & Hn & _). lia.
Qed.

(** A client that is not open does not advance the retry counter: when
    every attempt is answered that way the loop takes as many turns as it
    is given, one connection attempt in each, and neither returns nor
    raises. *)
Lemma start_loop_unbounded :
  (forall n, network n = Connects CLOSED) ->
  forall fuel s,
  ready s ->
  let r := start_loop network fuel 0 s in
  result_of r = OutOfFuel /\ connection_attempts (trace_of r) = fuel.
Proof.
  intros Hnet.
  induction fuel as [|fuel IH]; intros s Hready.
  - split; reflexivity.
  - destruct (start_loop_turn fuel Hready (retry_count:=0) eq_refl)
      as (s' & tr & Hrun & Htr & _ & Hnext).
    cbv zeta. rewrite Hrun. rewrite Hnet in *.
    cbv zeta. cbn [result_of state_of trace_of fst snd].
    destruct (IH s' Hnext) as (Hres & Hatt).
    split; [exact Hres|].
    rewrite connection_attempts_app, Htr, Hatt. reflexivity.
Qed.

End AwsProperties.

(** C9: the retry loop of [start] is not bounded by three attempts.  A
    freshly constructed service is started against a network whose every
    [websocket_connect] returns a client that is already closed.  [start]
    makes one connection attempt per turn of its loop for as long as it is
    left to run: with room for [fuel] turns it makes [fuel] attempts, more
    than three as soon as [fuel] is, and it has then neither returned nor
    raised RuntimeError. *)
Theorem aws_start_retries_without_bound (getenv : string -> option string) (fuel : nat) :
  let service :=
    state_of (AWSTranscribeSTTService.new getenv None None None None 16000
                AWSTranscribeSTTService.EN) in
  let network := fun _ : nat =>
    AWSTranscribeSTTService.Connects AWSTranscribeSTTService.CLOSED in
  let r := AWSTranscribeSTTService.start network fuel service in
  result_of r = OutOfFuel /\
  AWSTranscribeSTTService.connection_attempts (trace_of r) = fuel.
Proof.
  intros service network r.
  assert (Hready : AWSTranscribeSTTService.ready service).
  { repeat split. discriminate. }
  destruct (@start_loop_unbounded network (fun _ => eq_refl) fuel service Hready)
    as (Hres & Hatt).
  subst r. unfold AWSTranscribeSTTService.start, bind, emit. cbv beta iota.
  destruct (AWSTranscribeSTTService.start_loop network fuel 0 service) as [[o s2] t2].
  cbn [result_of state_of trace_of fst snd AWSTranscribeSTTService.connection_attempts app]
    in *.
  split; assumption.
Qed.

(** C10.  Whatever sample rate the constructor is given, construction
    returns normally.  The settings keep the value when it is 8000 or 16000
    and log nothing about it; every other value is replaced by 16000, with
    one warning. *)
Theorem aws_init_sample_rate
  (getenv : string -> option string)
  (api_key aws_access_key_id aws_session_token region : option string)
  (sample_rate : Z) (language : AWSTranscribeSTTService.Language) :
  let r := AWSTranscribeSTTService.new getenv api_key aws_access_key_id
             aws_session_token region sample_rate language in
  let supported := (sample_rate =? 8000) || (sample_rate =? 16000) in
  result_of r = Returned tt /\
  AWSTranscribeSTTService.sample_rate (AWSTranscribeSTTService._settings (state_of r))
    = (if supported then sample_rate else 16000) /\
  AWSTranscribeSTTService.warnings (trace_of r) = (if supported then 0 else 1)%nat /\
  ((sample_rate = 8000 \/ sample_rate = 16000) <-> supported = true).
Proof.
  cbv zeta. unfold AWSTranscribeSTTService.new, AWSTranscribeSTTService.init.
  unfold py_in. rewrite orb_false_r.
  destruct (Z.eqb_spec sample_rate 8000) as [H8|H8];
    destruct (Z.eqb_spec sample_rate 16000) as [H16|H16]; cbn;
    repeat split; try reflexivity; try tauto; try discriminate; intros [H|H]; congruence.
Qed.

(** * Further properties *)

(** ** More on the OutputGate: runs of deliveries and notifier signals *)

Section GateRuns.

Import OutputGate GateTrace.

Variable is_sys : Frame -> bool.

Lemma filter_all A (p : A -> bool) l : forallb p l = true -> filter p l = l.
Proof.
  induction l as [|x l IH]; [reflexivity|].
  simpl. intros H. apply andb_prop in H. destruct H as [Hx Hl].
  rewrite Hx, IH by exact Hl. reflexivity.
Qed.

(** What a frame delivered to the gate does, case by case. *)
Lemma process_frame_facts f d g :
  exists g' tr,
    process_frame is_sys f d g = (Returned tt, g', tr) /\
    ((_gate_open g = true -> _frames_buffer g = []) ->
     (_gate_open g' = true -> _frames_buffer g' = [])) /\
    (live g + tasks_created tr = tasks_cancelled tr + live g')%nat /\
    (discards is_sys (Deliver f d) = false ->
     (_gate_open g = true -> _frames_buffer g = []) ->
     forallb (held_back is_sys) (_frames_buffer g) = true ->
     filter (held_back is_sys) (pushed tr) ++ _frames_buffer g'
       = _frames_buffer g ++ filter (held_back is_sys) [(f, d)] /\
     forallb (held_back is_sys) (_frames_buffer g') = true).
Proof.
  destruct g as [o b k].
  unfold process_frame, discards, held_back. cbn [fst snd].
  destruct (is_sys f) eqn:Hs; [|destruct (is_function_call_frame f) eqn:Hf;
                                 [|destruct d; [destruct o|]]].
  all: destruct k as [k|].
  1,2: destruct f.
  all: cbn; do 2 eexists; (split; [reflexivity|]); cbn; rewrite ?Hs, ?Hf; cbn.
  all: split; [auto; discriminate|]; split; [reflexivity|].
  all: intros Hd Hinv Hb; try discriminate Hd; rewrite ?app_nil_r.
  all: try (split; [reflexivity|assumption]).
  all: try (rewrite (Hinv eq_refl); split; reflexivity).
  all: rewrite forallb_app, Hb; cbn; rewrite Hs, Hf; split; reflexivity.
Qed.

Lemma step_facts i g :
  exists g' tr,
    step is_sys i g = (Returned tt, g', tr) /\
    ((_gate_open g = true -> _frames_buffer g = []) ->
     (_gate_open g' = true -> _frames_buffer g' = [])) /\
    (live g + tasks_created tr = tasks_cancelled tr + live g')%nat /\
    (discards is_sys i = false ->
     (_gate_open g = true -> _frames_buffer g = []) ->
     forallb (held_back is_sys) (_frames_buffer g) = true ->
     filter (held_back is_sys) (pushed tr) ++ _frames_buffer g'
       = _frames_buffer g ++ filter (held_back is_sys) (delivered [i]) /\
     forallb (held_back is_sys) (_frames_buffer g') = true).
Proof.
  destruct i as [f d|].
  - destruct (process_frame_facts f d g) as (g' & tr & H1 & H2 & H3 & H4).
    exists g', tr. repeat split; auto; apply H4; auto.
  - unfold step, bind, gets. destruct g as [o b [k|]]; cbv beta iota; cbn [_gate_task].
    + rewrite gate_task_wake_run. cbn [_gate_task _frames_buffer _gate_open app].
      do 2 eexists. split; [reflexivity|]. cbn [live discards delivered flat_map
        _gate_task _frames_buffer _gate_open forallb filter app].
      assert (Hc : forall l, tasks_created
                 (map (fun fd : Frame * FrameDirection => push_frame (fst fd) (snd fd)) l) = 0%nat
               /\ tasks_cancelled
                 (map (fun fd : Frame * FrameDirection => push_frame (fst fd) (snd fd)) l) = 0%nat).
      { induction l as [|x l [IH1 IH2]]; split; auto. }
      destruct (Hc b) as [Hc1 Hc2]. rewrite Hc1, Hc2.
      repeat split; auto.
      rewrite pushed_map_push, !app_nil_r. apply filter_all. assumption.
    + do 2 eexists. split; [reflexivity|]. cbn. repeat split; auto.
      rewrite !app_nil_r. reflexivity.
Qed.

Lemma tasks_created_app tr1 tr2 :
  tasks_created (tr1 ++ tr2) = (tasks_created tr1 + tasks_created tr2)%nat.
Proof.
  induction tr1 as [|e tr1 IH]; [reflexivity|]. destruct e; simpl; rewrite IH; reflexivity.
Qed.

Lemma tasks_cancelled_app tr1 tr2 :
  tasks_cancelled (tr1 ++ tr2) = (tasks_cancelled tr1 + tasks_cancelled tr2)%nat.
Proof.
  induction tr1 as [|e tr1 IH]; [reflexivity|]. destruct e; simpl; rewrite IH; reflexivity.
Qed.

Lemma run_facts inputs : forall g,
  exists g' tr,
    run is_sys inputs g = (Returned tt, g', tr) /\
    ((_gate_open g = true -> _frames_buffer g = []) ->
     (_gate_open g' = true -> _frames_buffer g' = [])) /\
    (live g + tasks_created tr = tasks_cancelled tr + live g')%nat /\
    (forallb (fun i => negb (discards is_sys i)) inputs = true ->
     (_gate_open g = true -> _frames_buffer g = []) ->
     forallb (held_back is_sys) (_frames_buffer g) = true ->
     filter (held_back is_sys) (pushed tr) ++ _frames_buffer g'
       = _frames_buffer g ++ filter (held_back is_sys) (delivered inputs) /\
     forallb (held_back is_sys) (_frames_buffer g') = true).
Proof.
  induction inputs as [|i inputs IH]; intros g.
  - exists g, []. split; [reflexivity|]. split; [auto|]. split; [cbn; lia|].
    intros _ _ Hb. cbn. rewrite app_nil_r. auto.
  - destruct (step_facts i g) as (g1 & tr1 & Hrun1 & Hinv1 & Hbal1 & Hkeep1).
    destruct (IH g1) as (g2 & tr2 & Hrun2 & Hinv2 & Hbal2 & Hkeep2).
    exists g2, (tr1 ++ tr2). split.
    { unfold run in *. cbn [for_each]. erewrite bind_run by exact Hrun1.
      rewrite Hrun2. reflexivity. }
    split; [auto|]. split.
    { rewrite tasks_created_app, tasks_cancelled_app. lia. }
    intros Hnd Hinv Hb. cbn [forallb] in Hnd. apply andb_prop in Hnd.
    destruct Hnd as [Hnd1 Hnd]. apply negb_true_iff in Hnd1.
    destruct (Hkeep1 Hnd1 Hinv Hb) as [Heq1 Hb1].
    destruct (Hkeep2 Hnd (Hinv1 Hinv) Hb1) as [Heq2 Hb2].
    split; [|exact Hb2].
    rewrite pushed_app, filter_app, <- app_assoc, Heq2.
    rewrite app_assoc, Heq1.
    assert (Hd : delivered (i :: inputs) = delivered [i] ++ delivered inputs)
      by (unfold delivered; cbn [flat_map]; rewrite app_nil_r; reflexivity).
    rewrite Hd.
    rewrite filter_app, app_assoc. reflexivity.
Qed.

End GateRuns.

(** X1.  Started closed or open, and whatever is then delivered to it and
    whenever the notifier fires, the gate never raises and never is open
    while it still holds frames: an open gate has an empty buffer. *)
Theorem output_gate_open_holds_nothing
  (is_sys : Frame -> bool) (inputs : list OutputGate.Input) (start_open : bool) :
  let r := OutputGate.run is_sys inputs (OutputGate.init start_open) in
  result_of r = Returned tt /\
  (OutputGate._gate_open (state_of r) = false \/
   OutputGate._frames_buffer (state_of r) = []).
Proof.
  cbv zeta.
  destruct (run_facts is_sys inputs (OutputGate.init start_open))
    as (g' & tr & Hrun & Hinv & _).
  rewrite Hrun. cbn [result_of state_of fst snd]. split; [reflexivity|].
  destruct (OutputGate._gate_open g') eqn:Ho; [right|left; reflexivity].
  apply Hinv; reflexivity.
Qed.

(** X2.  Between two emptyings of the buffer (a StartFrame or a
    StartInterruptionFrame), the gate neither loses, nor repeats, nor
    reorders the frames it may hold back.  From a gate that holds nothing
    while open and whose buffer holds only such frames, for deliveries in
    any direction and of any class mixed with notifier signals: the
    held-back kind of frames already pushed on, followed by those still
    buffered, are the frames buffered at the outset followed by the
    held-back kind of frames delivered, in the order of delivery. *)
Theorem output_gate_keeps_order
  (is_sys : Frame -> bool) (inputs : list OutputGate.Input) (g : OutputGate.t) :
  forallb (fun i => negb (GateTrace.discards is_sys i)) inputs = true ->
  (OutputGate._gate_open g = true -> OutputGate._frames_buffer g = []) ->
  forallb (GateTrace.held_back is_sys) (OutputGate._frames_buffer g) = true ->
  let r := OutputGate.run is_sys inputs g in
  filter (GateTrace.held_back is_sys) (OutputGate.pushed (trace_of r))
    ++ OutputGate._frames_buffer (state_of r)
  = OutputGate._frames_buffer g
    ++ filter (GateTrace.held_back is_sys) (GateTrace.delivered inputs).
Proof.
  intros Hnd Hinv Hb. cbv zeta.
  destruct (run_facts is_sys inputs g) as (g' & tr & Hrun & _ & _ & Hkeep).
  rewrite Hrun. cbn [trace_of state_of fst snd].
  apply (Hkeep Hnd Hinv Hb).
Qed.

Lemma output_gate_keeps_order_witness :
  let inputs :=
    [OutputGate.Deliver (TextFrame "one") DOWNSTREAM;
     OutputGate.Deliver StopInterruptionFrame DOWNSTREAM;
     OutputGate.Deliver (TextFrame "two") DOWNSTREAM;
     OutputGate.NotifierFires;
     OutputGate.Deliver (TextFrame "up") UPSTREAM;
     OutputGate.Deliver (TextFrame "three") DOWNSTREAM] in
  let g := OutputGate.mk false [(TextFrame "zero", DOWNSTREAM)] (Some gate_task_handler) in
  let r := OutputGate.run frames_SystemFrame inputs g in
  filter (GateTrace.held_back frames_SystemFrame) (OutputGate.pushed (trace_of r))
    ++ OutputGate._frames_buffer (state_of r)
  = [(TextFrame "zero", DOWNSTREAM); (TextFrame "one", DOWNSTREAM);
     (TextFrame "two", DOWNSTREAM); (TextFrame "three", DOWNSTREAM)].
Proof.
  intros inputs g r.
  exact (output_gate_keeps_order frames_SystemFrame inputs g eq_refl
           (fun H => False_ind _ (diff_false_true H)) eq_refl).
Defined.

(** X3.  The gate holds at most one task and cancels what it created: over
    any run, from any state, the tasks held at the start plus those created
    are those cancelled plus those held at the end; so a gate run from its
    construction has created at most one task more than it has cancelled. *)
Theorem output_gate_task_balance
  (is_sys : Frame -> bool) (inputs : list OutputGate.Input) (g : OutputGate.t)
  (start_open : bool) :
  let r := OutputGate.run is_sys inputs g in
  let fresh := OutputGate.run is_sys inputs (OutputGate.init start_open) in
  (GateTrace.live g + GateTrace.tasks_created (trace_of r)
   = GateTrace.tasks_cancelled (trace_of r) + GateTrace.live (state_of r))%nat /\
  (GateTrace.tasks_cancelled (trace_of fresh) <= GateTrace.tasks_created (trace_of fresh)
   <= GateTrace.tasks_cancelled (trace_of fresh) + 1)%nat.
Proof.
  cbv zeta.
  destruct (run_facts is_sys inputs g) as (g' & tr & Hrun & _ & Hbal & _).
  destruct (run_facts is_sys inputs (OutputGate.init start_open))
    as (g1 & tr1 & Hrun1 & _ & Hbal1 & _).
  rewrite Hrun, Hrun1. cbn [trace_of state_of fst snd]. split; [exact Hbal|].
  unfold GateTrace.live in Hbal1. cbn in Hbal1.
  destruct (OutputGate._gate_task g1); lia.
Qed.

(** ** More on the input transport: the audio loop in general *)

Section TransportRuns.


Import BaseInputTransport TransportTrace.

(** One iteration of the audio loop, for every configuration. *)
Lemma iteration_facts audio a v e s :
  let r := _audio_task_iteration audio a v e s in
  let v' := match heard s a with Some n => described_tracking v n | None => v end in
  let transitions :=
    match heard s a with Some n => described_transition v n | None => [] end in
  exists e',
    r = (Returned (v', e'), s, trace_of r) /\
    pushed_frames is_speaking_transition (trace_of r) = transitions /\
    pushed_frames is_interruption (trace_of r)
      = (if interruptions_allowed s then map window transitions else []) /\
    pushed_frames is_InputAudioRawFrame (trace_of r)
      = (if vad_enabled (_params s) && negb (vad_audio_passthrough (_params s)) then []
         else [InputAudioRawFrame (worked_on s (audio, a))]).
Proof.
  destruct s as [[aie air [fl|] chunks ve vap [va|] [ea|]] sr ex task q ia];
    destruct a as [fa vs es].
  all: destruct ve, v, vs, ia, vap, e; cbv; answer_cases es;
    eexists; repeat split; reflexivity.
Qed.


Lemma loop_facts s inputs : forall v e,
  let r := _audio_task_loop inputs v e s in
  let transitions := described_transitions v (heard_along s inputs) in
  exists e',
    r = (Returned (fold_left described_tracking (heard_along s inputs) v, e'),
         s, trace_of r) /\
    pushed_frames is_speaking_transition (trace_of r) = transitions /\
    pushed_frames is_interruption (trace_of r)
      = (if interruptions_allowed s then map window transitions else []) /\
    pushed_frames is_InputAudioRawFrame (trace_of r)
      = (if vad_enabled (_params s) && negb (vad_audio_passthrough (_params s)) then []
         else map (fun i => InputAudioRawFrame (worked_on s i)) inputs).
Proof.
  induction inputs as [|[audio a] inputs IH]; intros v e; cbv zeta.
  - exists e. cbn. repeat split; destruct (interruptions_allowed s);
      destruct (vad_enabled (_params s) && negb (vad_audio_passthrough (_params s)));
      reflexivity.
  - destruct (iteration_facts audio a v e s) as (e1 & Hrun & Ht & Hi & Ha).
    cbn [_audio_task_loop].
    set (v1 := match heard s a with Some n => described_tracking v n | None => v end) in *.
    destruct (IH v1 e1) as (e2 & Hrun2 & Ht2 & Hi2 & Ha2).
    erewrite bind_run by exact Hrun. cbn [fst snd].
    destruct (_audio_task_loop inputs v1 e1 s) as [[o2 s2] t2].
    cbn [result_of state_of trace_of fst snd] in *.
    injection Hrun2 as -> ->.
    assert (Hh : heard_along s ((audio, a) :: inputs)
                 = match heard s a with Some n => [n] | None => [] end
                     ++ heard_along s inputs) by reflexivity.
    assert (Hv : fold_left described_tracking (heard_along s ((audio, a) :: inputs)) v
                 = fold_left described_tracking (heard_along s inputs) v1).
    { rewrite Hh. subst v1. destruct (heard s a); reflexivity. }
    assert (Hd : described_transitions v (heard_along s ((audio, a) :: inputs))
                 = match heard s a with Some n => described_transition v n | None => [] end
                     ++ described_transitions v1 (heard_along s inputs)).
    { rewrite Hh. subst v1. destruct (heard s a); reflexivity. }
    exists e2. rewrite Hv, Hd. split; [reflexivity|].
    rewrite !pushed_frames_app.
    fold (trace_of (_audio_task_iteration audio a v e s)).
    rewrite Ht, Hi, Ha, Ht2, Hi2, Ha2.
    destruct (interruptions_allowed s);
      destruct (vad_enabled (_params s) && negb (vad_audio_passthrough (_params s)));
      rewrite ?map_app; repeat split; reflexivity.
Qed.

Lemma alternates_described news : forall v,
  v = QUIET \/ v = SPEAKING ->
  alternates (VADState_eqb v QUIET) (described_transitions v news) = true /\
  windows_alternate (VADState_eqb v QUIET)
    (map window (described_transitions v news)) = true /\
  (fold_left described_tracking news v = QUIET \/
   fold_left described_tracking news v = SPEAKING).
Proof.
  induction news as [|n news IH]; intros v Hv.
  - cbn. auto.
  - destruct Hv as [-> | ->]; destruct n; cbn;
      try (apply (IH QUIET); auto); try (apply (IH SPEAKING); auto).
    all: first [ destruct (IH SPEAKING (or_intror eq_refl)) as (H1 & H2 & H3)
               | destruct (IH QUIET (or_introl eq_refl)) as (H1 & H2 & H3) ];
      cbn in *; auto.
Qed.


Variable is_sys : Frame -> bool.

(** What one delivery does to the transport, for every frame and state. *)
Lemma delivery_facts f d s :
  exists s' tr,
    process_frame is_sys f d s = (Returned tt, s', tr) /\
    _params s' = _params s /\
    (live s + tasks_created tr = tasks_cancelled tr + live s')%nat /\
    (task_inv s = true -> task_inv s' = true) /\
    (is_some (_audio_in_queue s) = true -> is_some (_audio_in_queue s') = true) /\
    (task_inv s = true ->
     match f with
     | CancelFrame => _audio_task s' = None
     | EndFrame => is_sys EndFrame = true \/ _audio_task s' = None
     | StartFrame _ =>
         audio_in_enabled (_params s) || vad_enabled (_params s) = true ->
         is_some (_audio_in_queue s') = true
     | _ => True
     end) /\
    (passes is_sys f = true -> pushed tr = [(f, d)]).
Proof.
  destruct s as [[aie air [fl|] chunks ve vap [va|] [ea|]] sr ex [task|] q ia];
    unfold process_frame, task_inv, passes;
    destruct f; try destruct (is_sys _) eqn:Hs; destruct aie, ve, ia;
    cbn; do 2 eexists; (split; [reflexivity|]); cbn;
    repeat split; auto; try discriminate; try (destruct q; cbn; auto; discriminate).
Qed.

End TransportRuns.

Section TransportRuns2.

Import BaseInputTransport TransportTrace.

Variable is_sys : Frame -> bool.

Lemma transport_tasks_created_app tr1 tr2 :
  tasks_created (tr1 ++ tr2) = (tasks_created tr1 + tasks_created tr2)%nat.
Proof.
  induction tr1 as [|e tr1 IH]; [reflexivity|]. destruct e; simpl; rewrite IH; reflexivity.
Qed.

Lemma transport_tasks_cancelled_app tr1 tr2 :
  tasks_cancelled (tr1 ++ tr2) = (tasks_cancelled tr1 + tasks_cancelled tr2)%nat.
Proof.
  induction tr1 as [|e tr1 IH]; [reflexivity|]. destruct e; simpl; rewrite IH; reflexivity.
Qed.

Lemma deliveries_facts ds : forall s,
  exists s' tr,
    process_frames is_sys ds s = (Returned tt, s', tr) /\
    _params s' = _params s /\
    (live s + tasks_created tr = tasks_cancelled tr + live s')%nat /\
    (task_inv s = true -> task_inv s' = true) /\
    (is_some (_audio_in_queue s) = true -> is_some (_audio_in_queue s') = true).
Proof.
  induction ds as [|[f d] ds IH]; intros s.
  - exists s, []. cbn. repeat split; auto; lia.
  - destruct (delivery_facts is_sys f d s) as (s1 & tr1 & Hrun1 & Hp1 & Hb1 & Hi1 & Hq1 & _).
    destruct (IH s1) as (s2 & tr2 & Hrun2 & Hp2 & Hb2 & Hi2 & Hq2).
    exists s2, (tr1 ++ tr2). split.
    { unfold process_frames in *. cbn [for_each fst snd].
      erewrite bind_run by exact Hrun1. rewrite Hrun2. reflexivity. }
    rewrite transport_tasks_created_app, transport_tasks_cancelled_app.
    repeat split; auto; try congruence; lia.
Qed.

End TransportRuns2.

(** ** The audio task when a call raises *)

Section AudioTaskCalls.

Import BaseInputTransport TransportTrace.






End AudioTaskCalls.


(** X5.  Whatever the analyzer answers, the speaking-transition frames the
    audio task pushes take turns, a UserStartedSpeakingFrame first: never
    two starts or two stops in a row.  The interruption frames it pushes
    are the StartInterruptionFrame or StopInterruptionFrame of each
    transition when interruptions are allowed, and none otherwise, so that
    interruption windows open and close in turn.  The VAD state the task
    tracks is QUIET or SPEAKING at every moment. *)
Theorem audio_loop_transitions_alternate
  (s : BaseInputTransport.t) (inputs : list (bytes * BaseInputTransport.Answers)) :
  let r := BaseInputTransport._audio_task_handler inputs s in
  let transitions :=
    BaseInputTransport.pushed_frames BaseInputTransport.is_speaking_transition (trace_of r) in
  let interruptions :=
    BaseInputTransport.pushed_frames TransportTrace.is_interruption (trace_of r) in
  TransportTrace.alternates true transitions = true /\
  TransportTrace.windows_alternate true interruptions = true /\
  interruptions
    = (if BaseInputTransport.interruptions_allowed s
       then map TransportTrace.window transitions else []) /\
  exists v e, result_of r = Returned (v, e) /\ (v = QUIET \/ v = SPEAKING).
Proof.
  cbv zeta. unfold BaseInputTransport._audio_task_handler.
  destruct (loop_facts s inputs QUIET INCOMPLETE) as (e' & Hrun & Ht & Hi & _).
  destruct (alternates_described (TransportTrace.heard_along s inputs)
              (or_introl (eq_refl QUIET))) as (Ha & Hw & Hv).
  rewrite Hi, Ht. split; [exact Ha|]. split.
  - destruct (BaseInputTransport.interruptions_allowed s); [exact Hw|reflexivity].
  - split; [reflexivity|]. rewrite Hrun. do 2 eexists. split; [reflexivity|exact Hv].
Qed.

(** X6.  The transport passes on what it has no handling of its own for:
    every frame other than the three requests it turns into other frames
    and the parameter updates it consumes is pushed exactly once, unchanged,
    in the direction it arrived with, whatever the state of the transport;
    StartFrame, EndFrame and CancelFrame included, their lifecycle routines
    pushing nothing besides. *)
Theorem input_transport_passes_frames_on
  (is_sys : Frame -> bool) (s : BaseInputTransport.t) (f : Frame) (d : FrameDirection) :
  TransportTrace.passes is_sys f = true ->
  let r := BaseInputTransport.process_frame is_sys f d s in
  result_of r = Returned tt /\ BaseInputTransport.pushed (trace_of r) = [(f, d)].
Proof.
  intros Hp. cbv zeta.
  destruct (delivery_facts is_sys f d s) as (s' & tr & Hrun & _ & _ & _ & _ & _ & Hpush).
  rewrite Hrun. split; [reflexivity|]. exact (Hpush Hp).
Qed.

Lemma input_transport_passes_frames_on_witness :
  let params :=
    {| BaseInputTransport.audio_in_enabled := true;
       BaseInputTransport.audio_in_sample_rate := None;
       BaseInputTransport.audio_in_filter := None;
       BaseInputTransport.audio_out_10ms_chunks := 4;
       BaseInputTransport.vad_enabled := false;
       BaseInputTransport.vad_audio_passthrough := false;
       BaseInputTransport.vad_analyzer := None;
       BaseInputTransport.end_of_turn_analyzer := None |} in
  let r := BaseInputTransport.process_frame frames_SystemFrame (TextFrame "hello") UPSTREAM
             (BaseInputTransport.init params false) in
  BaseInputTransport.pushed (trace_of r) = [(TextFrame "hello", UPSTREAM)].
Proof.
  intros params r.
  exact (proj2 (input_transport_passes_frames_on frames_SystemFrame
                  (BaseInputTransport.init params false) (TextFrame "hello") UPSTREAM
                  eq_refl)).
Defined.


(** X8.  After any history since construction, a CancelFrame leaves the
    transport without audio task, and so does an EndFrame wherever EndFrame
    is not dispatched as a system frame (where it is, [stop] is not
    reached). *)
Theorem input_transport_cancel_leaves_no_task
  (is_sys : Frame -> bool) (deliveries : list (Frame * FrameDirection))
  (params : BaseInputTransport.TransportParams) (allow : bool) (d : FrameDirection) :
  let s := state_of (TransportTrace.process_frames is_sys deliveries
                       (BaseInputTransport.init params allow)) in
  BaseInputTransport._audio_task
    (state_of (BaseInputTransport.process_frame is_sys CancelFrame d s)) = None /\
  (is_sys EndFrame = true \/
   BaseInputTransport._audio_task
     (state_of (BaseInputTransport.process_frame is_sys EndFrame d s)) = None).
Proof.
  cbv zeta.
  destruct (deliveries_facts is_sys deliveries (BaseInputTransport.init params allow))
    as (s1 & tr1 & Hrun1 & _ & _ & Hinv & _).
  rewrite Hrun1. cbn [state_of fst snd].
  specialize (Hinv eq_refl).
  destruct (delivery_facts is_sys CancelFrame d s1) as (s2 & tr2 & Hrun2 & _ & _ & _ & _ & Hc & _).
  destruct (delivery_facts is_sys EndFrame d s1) as (s3 & tr3 & Hrun3 & _ & _ & _ & _ & He & _).
  rewrite Hrun2, Hrun3. cbn [state_of fst snd]. split; [exact (Hc Hinv)|exact (He Hinv)].
Qed.

(** X9.  [push_audio_frame] needs the queue that [start] creates.  With
    audio input or VAD enabled, on a transport that has not seen a
    StartFrame it raises (the queue attribute does not exist yet); once a
    StartFrame has been processed, and whatever is delivered afterwards, it
    returns and puts the frame at the end of the queue.  With both disabled
    it does nothing, in any state. *)
Theorem push_audio_frame_needs_start
  (is_sys : Frame -> bool) (deliveries : list (Frame * FrameDirection))
  (params : BaseInputTransport.TransportParams) (allow : bool)
  (rate : Z) (d : FrameDirection) (f : Frame) (any : BaseInputTransport.t) :
  let fresh := BaseInputTransport.init params allow in
  let started :=
    state_of (TransportTrace.process_frames is_sys ((StartFrame rate, d) :: deliveries) fresh) in
  if BaseInputTransport.audio_in_enabled params || BaseInputTransport.vad_enabled params
  then
    BaseInputTransport.push_audio_frame f fresh
      = (Raised (OtherException "AttributeError"), fresh, []) /\
    exists q,
      BaseInputTransport._audio_in_queue started = Some q /\
      BaseInputTransport.push_audio_frame f started
        = (Returned tt, BaseInputTransport.set_audio_in_queue (Some (q ++ [f])) started,
           [BaseInputTransport.queue_put f])
  else
    BaseInputTransport.push_audio_frame f fresh = (Returned tt, fresh, []) /\
    (BaseInputTransport.audio_in_enabled (BaseInputTransport._params any)
       || BaseInputTransport.vad_enabled (BaseInputTransport._params any) = true \/
     BaseInputTransport.push_audio_frame f any = (Returned tt, any, [])).
Proof.
  cbv zeta.
  destruct (BaseInputTransport.audio_in_enabled params
            || BaseInputTransport.vad_enabled params) eqn:Hen.
  - split.
    { unfold BaseInputTransport.push_audio_frame, bind, gets, when.
      cbn. rewrite Hen. reflexivity. }
    unfold TransportTrace.process_frames. cbn [for_each fst snd].
    destruct (delivery_facts is_sys (StartFrame rate) d (BaseInputTransport.init params allow))
      as (s1 & tr1 & Hrun1 & Hp1 & _ & _ & _ & Hq1 & _).
    erewrite bind_run by exact Hrun1.
    destruct (deliveries_facts is_sys deliveries s1) as (s2 & tr2 & Hrun2 & Hp2 & _ & _ & Hq2).
    fold (TransportTrace.process_frames is_sys deliveries).
    rewrite Hrun2. cbn [state_of result_of trace_of fst snd].
    specialize (Hq2 (Hq1 eq_refl Hen)).
    destruct (BaseInputTransport._audio_in_queue s2) as [q|] eqn:Hq; [|discriminate].
    exists q. split; [reflexivity|].
    unfold BaseInputTransport.push_audio_frame, bind, gets, when.
    cbn. rewrite Hp2, Hp1. cbn. rewrite Hen, Hq. reflexivity.
  - split.
    { unfold BaseInputTransport.push_audio_frame, bind, gets, when.
      cbn. rewrite Hen. reflexivity. }
    destruct (BaseInputTransport.audio_in_enabled (BaseInputTransport._params any)
              || BaseInputTransport.vad_enabled (BaseInputTransport._params any)) eqn:Ha;
      [left; reflexivity|right].
    unfold BaseInputTransport.push_audio_frame, bind, gets, when.
    cbn. rewrite Ha. reflexivity.
Qed.


(** ** More on AWSTranscribeSTTService *)

Section AwsMore.

Import AWSTranscribeSTTService AwsTrace.

Variable network : nat -> Answer.

Lemma disconnect_run s :
  exists tr,
    _disconnect s =
      (Returned tt,
       mk (_settings s) (_credentials s) None (_connecting s) None (connect_calls s), tr) /\
    connection_attempts tr = 0%nat /\ sleeps tr = 0%nat /\ connect_rates tr = [].
Proof.
  destruct s as [st cr [[| | |]|] cn [k|] calls]; cbv; eexists; repeat split.
Qed.

Lemma sleeps_app tr1 tr2 : sleeps (tr1 ++ tr2) = (sleeps tr1 + sleeps tr2)%nat.
Proof.
  induction tr1 as [|e tr1 IH]; [reflexivity|]. destruct e; simpl; rewrite IH; reflexivity.
Qed.

(** [_connect] from any state. *)
Lemma connect_facts s :
  exists o s' tr,
    _connect network s = (o, s', tr) /\
    _settings s' = _settings s /\
    _credentials s' = _credentials s /\
    Forall (fun r => r = sample_rate (_settings s)) (connect_rates tr) /\
    sleeps tr = 0%nat /\
    (connection_attempts tr <= 1)%nat /\
    o <> OutOfFuel /\
    (_connecting s = false ->
     _connecting s' = false /\
     match o with
     | Returned _ => is_some (_ws_client s') && is_some (_receive_task s') = true
     | Raised _ => AWSTranscribeStreaming.disconnected s' = true
     | OutOfFuel => False
     end) /\
    (is_open (_ws_client s) && is_some (_receive_task s) = true ->
     o = Returned tt /\ s' = s /\ tr = []) /\
    (language_to_service_language (language (_settings s)) = None ->
     _connecting s = false ->
     is_open (_ws_client s) && is_some (_receive_task s) = false ->
     (exists msg, o = Raised (ValueError msg)) /\ connection_attempts tr = 0%nat).
Proof.
  destruct s as [[sr lang me nc ssl eci] creds ws connecting task calls].
  unfold _connect, _disconnect. run_method.
  destruct ws as [[| | |]|], task as [k|], connecting, lang; cbn;
    try destruct (network calls) as [st|e]; cbn;
    do 3 eexists; (split; [reflexivity|]); cbn;
    repeat split; auto; try discriminate; try congruence;
    try (repeat constructor); try (eexists; reflexivity).
Qed.

(** One turn of the retry loop from any state: either [start] returns, the
    client being open, or the loop goes on with the counter as it was or
    advanced by one. *)
Lemma start_turn fuel retry_count s :
  retry_count < max_retries ->
  exists s1 tr1 next,
    start_loop network (Datatypes.S fuel) retry_count s =
      match next with
      | None => (Returned tt, s1, tr1)
      | Some retry_count' =>
          let rest := start_loop network fuel retry_count' s1 in
          (result_of rest, state_of rest, tr1 ++ trace_of rest)
      end /\
    _settings s1 = _settings s /\
    Forall (fun r => r = sample_rate (_settings s)) (connect_rates tr1) /\
    match next with
    | None => is_open (_ws_client s1) = true
    | Some retry_count' => retry_count' = retry_count \/ retry_count' = retry_count + 1
    end /\
    (language_to_service_language (language (_settings s)) = None ->
     _connecting s = false ->
     is_open (_ws_client s) && is_some (_receive_task s) = false ->
     next = Some (retry_count + 1) /\
     connection_attempts tr1 = 0%nat /\
     sleeps tr1 = (if retry_count + 1 <? max_retries then 1%nat else 0%nat) /\
     _connecting s1 = false /\
     is_open (_ws_client s1) && is_some (_receive_task s1) = false).
Proof.
  intros Hlt. apply Z.ltb_lt in Hlt.
  destruct (connect_facts s)
    as (o & s' & tr & Hrun & Hset & _ & Hrates & Hsl & _ & Hfuel & Hconn & _ & Hlang).
  cbn [start_loop]. rewrite Hlt.
  unfold bind at 1. unfold try_except at 1. unfold bind at 1. rewrite Hrun.
  destruct o as [[]|e|]; [| |congruence].
  - run_method. destruct (is_open (_ws_client s')) eqn:Hopen; cbn.
    + eexists s', _, None.
      split; [reflexivity|]. split; [exact Hset|]. split.
      { unfold connect_rates in *. rewrite ?flat_map_app. cbn. rewrite ?app_nil_r.
        exact Hrates. }
      split; [exact Hopen|].
      intros Hl Hc Ha. destruct (Hlang Hl Hc Ha) as [[msg Hm] _]. discriminate Hm.
    + destruct (start_loop network fuel retry_count s') as [[r s2] t2] eqn:Hrest.
      eexists s', _, (Some retry_count).
      cbv zeta. rewrite Hrest. cbn [result_of state_of trace_of fst snd].
      split; [reflexivity|]. split; [exact Hset|]. split.
      { unfold connect_rates in *. rewrite ?flat_map_app. cbn. rewrite ?app_nil_r.
        exact Hrates. }
      split; [left; reflexivity|].
      intros Hl Hc Ha. destruct (Hlang Hl Hc Ha) as [[msg Hm] _]. discriminate Hm.
  - run_method.
    destruct (retry_count + 1 <? max_retries) eqn:Hnext; cbn;
      destruct (start_loop network fuel (retry_count + 1) s') as [[r s2] t2] eqn:Hrest;
      eexists s', _, (Some (retry_count + 1));
      cbv zeta; rewrite Hrest; cbn [result_of state_of trace_of fst snd];
      (split; [rewrite ?app_assoc; reflexivity|]);
      (split; [exact Hset|]); (split;
        [unfold connect_rates in *; rewrite ?flat_map_app; cbn; rewrite ?app_nil_r;
         exact Hrates|]);
      (split; [right; reflexivity|]);
      intros Hl Hc Ha; destruct (Hlang Hl Hc Ha) as [_ Hatt];
      destruct (Hconn Hc) as [Hc' Hd];
      unfold AWSTranscribeStreaming.disconnected in Hd;
      apply andb_prop in Hd; destruct Hd as [Hd1 Hd2];
      (split; [reflexivity|]);
      rewrite ?connection_attempts_app, ?sleeps_app, Hatt, Hsl;
      (split; [reflexivity|]); (split; [reflexivity|]);
      (split; [exact Hc'|destruct (_ws_client s'); [discriminate Hd1|reflexivity]]).
Qed.



(** The retry loop as a whole, from any state: the settings stay, every
    connection is asked for at the settings' rate, and a return means an
    open client. *)
Lemma start_loop_facts fuel : forall retry_count s,
  let r := start_loop network fuel retry_count s in
  _settings (state_of r) = _settings s /\
  Forall (fun rate => rate = sample_rate (_settings s)) (connect_rates (trace_of r)) /\
  (result_of r = Returned tt -> is_open (_ws_client (state_of r)) = true).
Proof.
  induction fuel as [|fuel IH]; intros retry_count s; cbv zeta.
  - cbn [start_loop]. destruct (retry_count <? max_retries); cbn;
      repeat split; try constructor; discriminate.
  - destruct (Z.ltb_spec retry_count max_retries) as [Hlt|Hge].
    + destruct (start_turn fuel s Hlt) as (s1 & tr1 & next & Hrun & Hset & Hrates & Hnext & _).
      rewrite Hrun. destruct next as [retry_count'|].
      * cbv zeta. cbn [result_of state_of trace_of fst snd].
        destruct (IH retry_count' s1) as (Hset' & Hrates' & Hopen').
        split; [congruence|]. split; [|exact Hopen'].
        unfold connect_rates in *. rewrite flat_map_app. apply Forall_app. split; [exact Hrates|].
        rewrite <- Hset. exact Hrates'.
      * cbn [result_of state_of trace_of fst snd]. auto.
    + apply Z.ltb_ge in Hge. cbn [start_loop]. rewrite Hge. cbn.
      repeat split; try constructor; discriminate.
Qed.

(** A language the service has no code for: every turn fails before any
    connection is asked for. *)
Lemma start_loop_unsupported fuel : forall retry_count s,
  language_to_service_language (language (_settings s)) = None ->
  _connecting s = false ->
  is_open (_ws_client s) && is_some (_receive_task s) = false ->
  0 <= retry_count <= max_retries ->
  (Z.to_nat (max_retries - retry_count) <= fuel)%nat ->
  let r := start_loop network fuel retry_count s in
  (exists msg, result_of r = Raised (RuntimeError msg)) /\
  connection_attempts (trace_of r) = 0%nat /\
  sleeps (trace_of r) = Z.to_nat (max_retries - 1 - retry_count).
Proof.
  unfold max_retries.
  induction fuel as [|fuel IH]; intros retry_count s Hl Hc Ha Hrc Hfuel; cbv zeta.
  - assert (retry_count = 3) by lia. subst. cbn.
    split; [eexists; reflexivity|]. split; reflexivity.
  - destruct (Z.ltb_spec retry_count 3) as [Hlt|Hge].
    + destruct (start_turn fuel s Hlt) as (s1 & tr1 & next & Hrun & Hset & _ & _ & Hbad).
      destruct (Hbad Hl Hc Ha) as (-> & Hatt & Hsl & Hc1 & Ha1).
      rewrite Hrun. cbv zeta. cbn [result_of state_of trace_of fst snd].
      assert (Hl1 : language_to_service_language (language (_settings s1)) = None)
        by (rewrite Hset; exact Hl).
      assert (Hrc1 : 0 <= retry_count + 1 <= 3) by lia.
      assert (Hfuel1 : (Z.to_nat (3 - (retry_count + 1)) <= fuel)%nat) by lia.
      destruct (IH (retry_count + 1) s1 Hl1 Hc1 Ha1 Hrc1 Hfuel1) as (Hres & Hatt' & Hsl').
      split; [exact Hres|].
      rewrite connection_attempts_app, sleeps_app, Hatt, Hatt', Hsl, Hsl'.
      split; [reflexivity|].
      unfold max_retries. destruct (Z.ltb_spec (retry_count + 1) 3); lia.
    + assert (retry_count = 3) by lia. subst. cbn.
      split; [eexists; reflexivity|]. split; reflexivity.
Qed.

End AwsMore.

(** X11.  [stop] and [cancel] always leave the service disconnected and
    never raise: whatever the state (no client at all included, where
    closing fails and is only logged), afterwards there is neither client
    nor receive task, settings and credentials are as before, and stopping
    again changes nothing. *)
Theorem aws_stop_disconnects (s : AWSTranscribeSTTService.t) :
  let stopped := AWSTranscribeStreaming.stop s in
  let cancelled := AWSTranscribeStreaming.cancel s in
  result_of stopped = Returned tt /\
  result_of cancelled = Returned tt /\
  state_of cancelled = state_of stopped /\
  AWSTranscribeStreaming.disconnected (state_of stopped) = true /\
  AWSTranscribeSTTService._settings (state_of stopped) = AWSTranscribeSTTService._settings s /\
  AWSTranscribeSTTService._credentials (state_of stopped)
    = AWSTranscribeSTTService._credentials s /\
  state_of (AWSTranscribeStreaming.stop (state_of stopped)) = state_of stopped.
Proof.
  destruct s as [st cr [[| | |]|] cn [k|] calls]; cbv; repeat split.
Qed.

(** X12.  [_connect] leaves no connection half made.  Entered with no
    connection attempt in progress, it ends with none in progress; if it
    returns there is a client and a receive task; if it raises there is
    neither; it makes at most one call of [websocket_connect] and never
    touches settings or credentials.  When the client is open and the
    receive task runs, it does nothing at all. *)
Theorem aws_connect_outcomes
  (network : nat -> AWSTranscribeSTTService.Answer) (s : AWSTranscribeSTTService.t) :
  AWSTranscribeSTTService._connecting s = false ->
  let r := AWSTranscribeSTTService._connect network s in
  AWSTranscribeSTTService._connecting (state_of r) = false /\
  match result_of r with
  | Returned _ =>
      AWSTranscribeSTTService.is_some (AWSTranscribeSTTService._ws_client (state_of r))
      && AWSTranscribeSTTService.is_some (AWSTranscribeSTTService._receive_task (state_of r))
      = true
  | Raised _ => AWSTranscribeStreaming.disconnected (state_of r) = true
  | OutOfFuel => False
  end /\
  (AWSTranscribeSTTService.connection_attempts (trace_of r) <= 1)%nat /\
  AWSTranscribeSTTService._settings (state_of r) = AWSTranscribeSTTService._settings s /\
  AWSTranscribeSTTService._credentials (state_of r)
    = AWSTranscribeSTTService._credentials s /\
  (if AWSTranscribeSTTService.is_open (AWSTranscribeSTTService._ws_client s)
      && AWSTranscribeSTTService.is_some (AWSTranscribeSTTService._receive_task s)
   then r = (Returned tt, s, [])
   else True).
Proof.
  intros Hc. cbv zeta.
  destruct (connect_facts network s)
    as (o & s' & tr & Hrun & Hset & Hcred & _ & _ & Hatt & _ & Hconn & Hal & _).
  rewrite Hrun. cbn [result_of state_of trace_of fst snd].
  destruct (Hconn Hc) as [Hc' Ho].
  repeat split; auto.
  destruct (AWSTranscribeSTTService.is_open (AWSTranscribeSTTService._ws_client s)
            && AWSTranscribeSTTService.is_some (AWSTranscribeSTTService._receive_task s));
    [|exact I].
  destruct (Hal eq_refl) as (-> & -> & ->). reflexivity.
Qed.

Lemma aws_connect_outcomes_witness :
  let s := state_of (AWSTranscribeSTTService.new (fun _ => None) None None None None 8000
                       AWSTranscribeSTTService.FR) in
  let r := AWSTranscribeSTTService._connect
             (fun _ => AWSTranscribeSTTService.Fails (OtherException "refused")) s in
  AWSTranscribeSTTService._connecting (state_of r) = false /\
  AWSTranscribeStreaming.disconnected (state_of r) = true.
Proof.
  intros s r.
  destruct (aws_connect_outcomes
              (fun _ => AWSTranscribeSTTService.Fails (OtherException "refused")) s eq_refl)
    as (Hc & Ho & _).
  split; [exact Hc|exact Ho].
Defined.

(** X13.  A service whose language AWS Transcribe has no code for cannot be
    started: [start] gives up with RuntimeError after its three turns,
    having slept twice and without having asked for a single connection,
    whatever the network would have answered. *)
Theorem aws_start_unsupported_language
  (network : nat -> AWSTranscribeSTTService.Answer) (s : AWSTranscribeSTTService.t)
  (fuel : nat) :
  AWSTranscribeSTTService.language_to_service_language
    (AWSTranscribeSTTService.language (AWSTranscribeSTTService._settings s)) = None ->
  AWSTranscribeSTTService._connecting s = false ->
  AWSTranscribeSTTService.is_open (AWSTranscribeSTTService._ws_client s)
  && AWSTranscribeSTTService.is_some (AWSTranscribeSTTService._receive_task s) = false ->
  (3 <= fuel)%nat ->
  let r := AWSTranscribeSTTService.start network fuel s in
  (exists msg, result_of r = Raised (RuntimeError msg)) /\
  AWSTranscribeSTTService.connection_attempts (trace_of r) = 0%nat /\
  AwsTrace.sleeps (trace_of r) = 2%nat.
Proof.
  intros Hl Hc Ha Hfuel. cbv zeta.
  destruct (@start_loop_unsupported network fuel 0 s Hl Hc Ha
              ltac:(unfold AWSTranscribeSTTService.max_retries; lia)
              ltac:(unfold AWSTranscribeSTTService.max_retries; cbn; lia))
    as (Hres & Hatt & Hsl).
  unfold AWSTranscribeSTTService.start, bind, emit. cbv beta iota.
  destruct (AWSTranscribeSTTService.start_loop network fuel 0 s) as [[o s2] t2].
  cbn [result_of state_of trace_of fst snd AWSTranscribeSTTService.connection_attempts
       AwsTrace.sleeps app] in *.
  repeat split; assumption.
Qed.

Lemma aws_start_unsupported_language_witness :
  let s := state_of (AWSTranscribeSTTService.new (fun _ => None) None None None None 16000
                       (AWSTranscribeSTTService.OtherLanguage "tlh")) in
  let r := AWSTranscribeSTTService.start
             (fun _ => AWSTranscribeSTTService.Connects AWSTranscribeSTTService.OPEN) 3 s in
  AWSTranscribeSTTService.connection_attempts (trace_of r) = 0%nat /\
  AwsTrace.sleeps (trace_of r) = 2%nat.
Proof.
  intros s r.
  destruct (aws_start_unsupported_language
              (fun _ => AWSTranscribeSTTService.Connects AWSTranscribeSTTService.OPEN) s
              (fuel:=3) eq_refl eq_refl eq_refl (le_n 3)) as (_ & Ha & Hs).
  split; assumption.
Defined.

(** X14.  When every failed attempt raises, [start] keeps its bound.  From
    a service ready to connect, and given room for its three turns, it
    returns or raises RuntimeError, after at most three connection
    attempts; and it returns exactly when one of the next three answers of
    the network is an open client. *)
Theorem aws_start_bounded_when_failures_raise
  (network : nat -> AWSTranscribeSTTService.Answer) (s : AWSTranscribeSTTService.t)
  (fuel : nat) :
  (forall n, network n = AWSTranscribeSTTService.Connects AWSTranscribeSTTService.OPEN
             \/ exists e, network n = AWSTranscribeSTTService.Fails e) ->
  AWSTranscribeSTTService.ready s ->
  (3 <= fuel)%nat ->
  let r := AWSTranscribeSTTService.start network fuel s in
  (result_of r = Returned tt \/ exists msg, result_of r = Raised (RuntimeError msg)) /\
  (AWSTranscribeSTTService.connection_attempts (trace_of r) <= 3)%nat /\
  (result_of r = Returned tt <->
   exists n, (n < 3)%nat /\
     network (AWSTranscribeSTTService.connect_calls s + n)%nat
     = AWSTranscribeSTTService.Connects AWSTranscribeSTTService.OPEN).
Proof.
  intros Hnet Hready Hfuel. cbv zeta.
  destruct (@start_loop_bounded network Hnet fuel 0 s Hready
              ltac:(unfold AWSTranscribeSTTService.max_retries; lia)
              ltac:(unfold AWSTranscribeSTTService.max_retries; cbn; lia))
    as (Hres & Hatt & Hiff).
  unfold AWSTranscribeSTTService.start, bind, emit. cbv beta iota.
  destruct (AWSTranscribeSTTService.start_loop network fuel 0 s) as [[o s2] t2].
  cbn [result_of state_of trace_of fst snd AWSTranscribeSTTService.connection_attempts app]
    in *.
  repeat split; try assumption; apply Hiff.
Qed.

Lemma aws_start_bounded_when_failures_raise_witness :
  let s := state_of (AWSTranscribeSTTService.new (fun _ => None) None None None None 16000
                       AWSTranscribeSTTService.EN) in
  let network := fun n : nat =>
    match n with
    | O => AWSTranscribeSTTService.Fails (OtherException "refused")
    | _ => AWSTranscribeSTTService.Connects AWSTranscribeSTTService.OPEN
    end in
  let r := AWSTranscribeSTTService.start network 3 s in
  (AWSTranscribeSTTService.connection_attempts (trace_of r) <= 3)%nat.
Proof.
  intros s network r.
  assert (Hnet : forall n,
             network n = AWSTranscribeSTTService.Connects AWSTranscribeSTTService.OPEN
             \/ exists e, network n = AWSTranscribeSTTService.Fails e).
  { intros [|n]; [right; eexists; reflexivity|left; reflexivity]. }
  assert (Hready : AWSTranscribeSTTService.ready s).
  { repeat split. discriminate. }
  exact (proj1 (proj2 (@aws_start_bounded_when_failures_raise network s 3
                         Hnet Hready (le_n 3)))).
Defined.

(** X15.  [start] returns only with an open connection: from any state and
    against any network, if [start] returns normally the client is in
    State.OPEN. *)
Theorem aws_start_returns_only_when_open
  (network : nat -> AWSTranscribeSTTService.Answer) (s : AWSTranscribeSTTService.t)
  (fuel : nat) :
  result_of (AWSTranscribeSTTService.start network fuel s) = Returned tt ->
  AWSTranscribeSTTService._ws_client
    (state_of (AWSTranscribeSTTService.start network fuel s))
  = Some AWSTranscribeSTTService.OPEN.
Proof.
  destruct (start_loop_facts network fuel 0 s) as (_ & _ & Hopen).
  unfold AWSTranscribeSTTService.start, bind, emit. cbv beta iota.
  destruct (AWSTranscribeSTTService.start_loop network fuel 0 s) as [[o s2] t2].
  cbn [result_of state_of trace_of fst snd] in *.
  intros H. specialize (Hopen H).
  destruct (AWSTranscribeSTTService._ws_client s2) as [[| | |]|]; try discriminate Hopen.
  reflexivity.
Qed.

Lemma aws_start_returns_only_when_open_witness :
  let s := state_of (AWSTranscribeSTTService.new (fun _ => None) None None None None 16000
                       AWSTranscribeSTTService.EN) in
  let network := fun _ : nat =>
    AWSTranscribeSTTService.Connects AWSTranscribeSTTService.OPEN in
  AWSTranscribeSTTService._ws_client
    (state_of (AWSTranscribeSTTService.start network 1 s))
  = Some AWSTranscribeSTTService.OPEN.
Proof.
  intros s network.
  exact (aws_start_returns_only_when_open network s 1 eq_refl).
Defined.

(** X16.  A constructed service only ever asks AWS for 8000 Hz or 16000 Hz:
    whatever sample rate the constructor was given, every connection that
    [start] asks for, against any network and however long it runs, carries
    one of these two rates, and [start] leaves the settings as the
    constructor made them. *)
Theorem aws_connects_with_supported_rate
  (getenv : string -> option string)
  (api_key aws_access_key_id aws_session_token region : option string)
  (sample_rate : Z) (language : AWSTranscribeSTTService.Language)
  (network : nat -> AWSTranscribeSTTService.Answer) (fuel : nat) :
  let s := state_of (AWSTranscribeSTTService.new getenv api_key aws_access_key_id
                       aws_session_token region sample_rate language) in
  let r := AWSTranscribeSTTService.start network fuel s in
  Forall (fun rate => rate = 8000 \/ rate = 16000) (AwsTrace.connect_rates (trace_of r)) /\
  AWSTranscribeSTTService._settings (state_of r) = AWSTranscribeSTTService._settings s.
Proof.
  cbv zeta.
  set (s := state_of (AWSTranscribeSTTService.new getenv api_key aws_access_key_id
                        aws_session_token region sample_rate language)).
  assert (Hrate : AWSTranscribeSTTService.sample_rate (AWSTranscribeSTTService._settings s)
                  = 8000 \/
                  AWSTranscribeSTTService.sample_rate (AWSTranscribeSTTService._settings s)
                  = 16000).
  { subst s. unfold AWSTranscribeSTTService.new, AWSTranscribeSTTService.init, py_in.
    rewrite orb_false_r.
    destruct (Z.eqb_spec sample_rate 8000); destruct (Z.eqb_spec sample_rate 16000);
      cbn; auto. }
  destruct (start_loop_facts network fuel 0 s) as (Hset & Hrates & _).
  unfold AWSTranscribeSTTService.start, bind, emit. cbv beta iota.
  destruct (AWSTranscribeSTTService.start_loop network fuel 0 s) as [[o s2] t2].
  cbn [result_of state_of trace_of fst snd] in *.
  split; [|exact Hset].
  change (AwsTrace.connect_rates
            ([AWSTranscribeSTTService.super_start]
               ++ [AWSTranscribeSTTService.log_info "Starting AWS Transcribe service..."]
               ++ t2))
    with (AwsTrace.connect_rates t2).
  eapply Forall_impl; [|exact Hrates].
  intros rate ->. exact Hrate.
Qed.

(** X17.  The language table is one to one: two languages the service
    supports never share an AWS language code, and the languages without a
    code are exactly those outside the table. *)
Theorem aws_language_codes_distinct
  (l1 l2 : AWSTranscribeSTTService.Language) :
  (AWSTranscribeSTTService.language_to_service_language l1 <> None ->
   AWSTranscribeSTTService.language_to_service_language l1
   = AWSTranscribeSTTService.language_to_service_language l2 ->
   l1 = l2) /\
  (AWSTranscribeSTTService.language_to_service_language l1 = None
   <-> AwsTrace.supported l1 = false).
Proof.
  split.
  - destruct l1, l2; cbn; intros Hn H; try reflexivity; try discriminate H;
      exfalso; apply Hn; reflexivity.
  - destruct l1; cbn; split; intros H; try reflexivity; discriminate H.
Qed.

(** ** AWSTranscribeSTTService: streaming *)

Section AwsStreaming.

Import AWSTranscribeSTTService AWSTranscribeStreaming.

Variable network : nat -> Answer.

Lemma run_stt_facts audio w s :
  let r := run_stt network audio w s in
  result_of r = Returned tt /\
  (List.length (yielded (trace_of r)) <= 1)%nat /\
  forallb is_nonfatal_error (yielded (trace_of r)) = true /\
  (if metrics_started (trace_of r)
   then yielded (trace_of r) = [] /\ sent (trace_of r) = [audio]
   else disconnected (state_of r) = true) /\
  _settings (state_of r) = _settings s.
Proof.
  destruct s as [[sr lang me nc ssl eci] creds ws connecting task calls].
  destruct w as [enc snd].
  destruct (language_to_service_language lang) as [code|] eqn:Hcode.
  all: destruct ws as [[| | |]|], task as [k|], connecting, enc as [ee|], snd as [| |se];
    cbv -[language_to_service_language]; rewrite ?Hcode;
    try destruct (network calls) as [[| | |]|e];
    cbv -[language_to_service_language]; repeat split; auto.
Qed.

(** A turn of the receive loop never raises and never changes the service. *)
Lemma receive_iteration_run r s :
  exists b, _receive_iteration r s = (Returned b, s, trace_of (_receive_iteration r s)) /\
  (b = false ->
   negb (is_some (_ws_client s)) || is_closed (_ws_client s) = true \/
   match r with RecvConnectionClosed | RecvRaises _ => True | _ => False end).
Proof.
  destruct s as [st cr ws cn task calls].
  unfold _receive_iteration. run_method.
  destruct ws as [[| | |]|]; cbn; try (eexists; split; [reflexivity|auto]).
  all: destruct r as [| |e|mt [tr msg]]; cbn; try (eexists; split; [reflexivity|auto]).
  all: try (intros H; discriminate H).
  all: destruct (option_string_eqb mt "event"); [|destruct (option_string_eqb mt "exception")].
  all: try (cbn; eexists; split; [reflexivity|intros H; discriminate H]).
  all: destruct tr as [[[[|[[[|[[[|c t]|]] altrest]|] ip] rest]|]]|];
    cbn; try (eexists; split; [reflexivity|intros H; discriminate H]).
  all: destruct ip as [[|]|]; cbn; eexists; (split; [reflexivity|intros H; discriminate H]).
Qed.

Lemma receive_iteration_breaks r s :
  match r with RecvConnectionClosed | RecvRaises _ => True | _ => False end ->
  result_of (_receive_iteration r s) = Returned false.
Proof.
  destruct s as [st cr [[| | |]|] cn task calls]; destruct r; intros H;
    try contradiction; reflexivity.
Qed.

Lemma receive_loop_run rs : forall s,
  _receive_loop rs s = (Returned tt, s, trace_of (_receive_loop rs s)).
Proof.
  induction rs as [|r rs IH]; intros s; [reflexivity|].
  destruct (receive_iteration_run r s) as (b & Hrun & _).
  cbn [_receive_loop]. erewrite bind_run by exact Hrun.
  destruct b; cbn [result_of state_of trace_of fst snd]; [|reflexivity].
  rewrite IH at 1 2. reflexivity.
Qed.

Lemma receive_loop_break pre : forall r post s,
  match r with RecvConnectionClosed | RecvRaises _ => True | _ => False end ->
  _receive_loop (pre ++ r :: post) s = _receive_loop (pre ++ [r]) s.
Proof.
  induction pre as [|p pre IH]; intros r post s Hr.
  - cbn [app _receive_loop].
    destruct (receive_iteration_run r s) as (b & Hrun & _).
    pose proof (receive_iteration_breaks r s Hr) as Hb.
    rewrite Hrun in Hb. cbn in Hb. injection Hb as ->.
    erewrite !bind_run by exact Hrun. reflexivity.
  - cbn [app _receive_loop].
    destruct (receive_iteration_run p s) as (b & Hrun & _).
    erewrite !bind_run by exact Hrun.
    destruct b; [|reflexivity]. rewrite (IH r post s Hr). reflexivity.
Qed.

End AwsStreaming.

(** X18.  [run_stt] reports its failures as frames and never raises.  For
    any state of the service, any answer of the network and any way the
    send may end: it returns normally; it yields at most one frame, always
    an ErrorFrame that is not fatal; if the chunk was sent and the metrics
    started it yields nothing and has sent the chunk exactly once; in every
    other case it leaves the service disconnected, with neither client nor
    receive task, so that the next chunk starts from a reconnection.  The
    settings never change. *)
Theorem aws_run_stt_never_raises
  (network : nat -> AWSTranscribeSTTService.Answer) (audio : bytes)
  (w : AWSTranscribeStreaming.Sending) (s : AWSTranscribeSTTService.t) :
  let r := AWSTranscribeStreaming.run_stt network audio w s in
  result_of r = Returned tt /\
  (List.length (AWSTranscribeStreaming.yielded (trace_of r)) <= 1)%nat /\
  forallb AWSTranscribeStreaming.is_nonfatal_error
    (AWSTranscribeStreaming.yielded (trace_of r)) = true /\
  (if AWSTranscribeStreaming.metrics_started (trace_of r)
   then AWSTranscribeStreaming.yielded (trace_of r) = [] /\
        AWSTranscribeStreaming.sent (trace_of r) = [audio]
   else AWSTranscribeStreaming.disconnected (state_of r) = true) /\
  AWSTranscribeSTTService._settings (state_of r) = AWSTranscribeSTTService._settings s.
Proof. exact (run_stt_facts network audio w s). Qed.


(** X20.  The receive loop ends at the first closed connection or
    unexpected error: whatever the socket would have delivered afterwards
    is not read.  The loop as a whole never raises and leaves the service as
    it found it. *)
Theorem aws_receive_loop_stops_at_break
  (before after : list AWSTranscribeStreaming.Recv) (e : Exn)
  (s : AWSTranscribeSTTService.t) :
  let loop := AWSTranscribeStreaming._receive_loop in
  loop (before ++ AWSTranscribeStreaming.RecvConnectionClosed :: after) s
    = loop (before ++ [AWSTranscribeStreaming.RecvConnectionClosed]) s /\
  loop (before ++ AWSTranscribeStreaming.RecvRaises e :: after) s
    = loop (before ++ [AWSTranscribeStreaming.RecvRaises e]) s /\
  result_of (loop (before ++ after) s) = Returned tt /\
  state_of (loop (before ++ after) s) = s.
Proof.
  cbv zeta. split; [|split].
  - apply receive_loop_break. exact I.
  - apply receive_loop_break. exact I.
  - rewrite receive_loop_run. split; reflexivity.
Qed.

(** ** StatementJudgeContextFilter *)

Section StatementJudge.

Import StatementJudgeContextFilter.

Lemma collect_parts l : forall acc,
  fold_left
    (fun acc c => if String.eqb (part_type c) "text" then part_text c :: acc else acc)
    l acc
  = rev (flat_map (fun c => if String.eqb (part_type c) "text" then [part_text c] else [])
           l) ++ acc.
Proof.
  induction l as [|c l IH]; intros acc; [reflexivity|].
  cbn [fold_left flat_map]. rewrite IH.
  destruct (String.eqb (part_type c) "text"); cbn [app rev].
  - rewrite <- app_assoc. reflexivity.
  - reflexivity.
Qed.

(** What the loop has collected after the trailing user messages. *)
Lemma scan_users run : forall rest acc,
  forallb is_user run = true ->
  scan (rev run ++ rest) acc
  = scan rest (List.concat (map (fun m => rev (parts_said m)) run)
                 ++ acc ++ rev (flat_map said run)).
Proof.
  induction run as [|m run IH] using rev_ind; intros rest acc Hu.
  - cbn. rewrite app_nil_r. reflexivity.
  - rewrite forallb_app in Hu. apply andb_prop in Hu. destruct Hu as [Hrun Hm].
    cbn in Hm. rewrite andb_true_r in Hm. unfold is_user in Hm.
    rewrite rev_app_distr. cbn [rev app scan]. rewrite Hm. cbn [negb].
    rewrite IH by exact Hrun. f_equal.
    rewrite map_app, concat_app, flat_map_app, rev_app_distr. cbn [map List.concat flat_map].
    rewrite ?app_nil_r.
    set (P := List.concat (map (fun m => rev (parts_said m)) run)).
    set (Ss := rev (flat_map said run)).
    unfold parts_said, said.
    destruct (content m) as [s|l|]; cbn [rev app];
      rewrite ?collect_parts, ?app_nil_r; repeat rewrite <- app_assoc; reflexivity.
Qed.

Lemma rev_concat_rev (ls : list (list string)) :
  rev (List.concat (map (fun l => rev l) ls)) = List.concat (rev ls).
Proof.
  induction ls as [|l ls IH]; [reflexivity|].
  cbn [map List.concat rev]. rewrite rev_app_distr, IH, rev_involutive, concat_app.
  cbn. rewrite app_nil_r. reflexivity.
Qed.

Lemma judge_users before run :
  forallb is_user run = true ->
  match rev before with m :: _ => is_user m = false | [] => True end ->
  judge (before ++ run)
  = match flat_map said run ++ List.concat (rev (map parts_said run)) with
    | [] => None
    | texts =>
        Some ([{| role := "system"; content := Str classifier_statement |}]
                ++ match assistant_before before with Some m => [m] | None => [] end
                ++ [{| role := "user"; content := Str (String.concat " " texts) |}])
    end.
Proof.
  intros Hu Hb. unfold judge. rewrite rev_app_distr, scan_users by exact Hu.
  rewrite ?app_nil_l. cbn [app].
  set (collected := List.concat (map (fun m => rev (parts_said m)) run) ++ rev (flat_map said run)).
  assert (Hrev : rev collected
                 = flat_map said run ++ List.concat (rev (map parts_said run))).
  { subst collected. rewrite rev_app_distr, rev_involutive. f_equal.
    rewrite <- rev_concat_rev, map_map. reflexivity. }
  assert (Hscan : scan (rev before) collected = (collected, assistant_before before)).
  { unfold assistant_before. destruct (rev before) as [|m l]; [reflexivity|].
    cbn [scan]. unfold is_user in Hb. rewrite Hb. reflexivity. }
  rewrite Hscan, <- Hrev.
  destruct collected as [|c cs]; [reflexivity|].
  destruct (rev (c :: cs)) eqn:Hr; [|reflexivity].
  apply (f_equal (@List.length string)) in Hr. rewrite length_rev in Hr. discriminate Hr.
Qed.

End StatementJudge.

(** X21.  What the statement judge is asked.  For a context that ends with
    a run of user messages (whatever precedes the run not ending with a
    user message), the filter pushes downstream one LLMMessagesFrame made
    of the classifier's system prompt, the assistant message standing just
    before the run if there is one, and one user message.  Its text joins
    with spaces the string contents of the run, oldest first, followed by
    the text parts of the list contents, most recent message first (the
    parts of one message in their order).  If the run holds no text the
    filter pushes nothing. *)
Theorem statement_judge_user_message
  (is_sys : StatementJudgeContextFilter.InFrame -> bool)
  (before run : list StatementJudgeContextFilter.Message) (d : FrameDirection) :
  let frame := StatementJudgeContextFilter.OpenAILLMContextFrame (before ++ run) in
  is_sys frame = false ->
  forallb StatementJudgeContextFilter.is_user run = true ->
  match rev before with
  | m :: _ => StatementJudgeContextFilter.is_user m = false
  | [] => True
  end ->
  let texts :=
    flat_map StatementJudgeContextFilter.said run
      ++ List.concat (rev (map StatementJudgeContextFilter.parts_said run)) in
  trace_of (StatementJudgeContextFilter.process_frame is_sys frame d tt)
  = StatementJudgeContextFilter.super_process_frame frame d
      :: match texts with
         | [] => []
         | _ =>
             [StatementJudgeContextFilter.push_frame
                (StatementJudgeContextFilter.LLMMessagesFrame
                   ([{| StatementJudgeContextFilter.role := "system";
                        StatementJudgeContextFilter.content :=
                          StatementJudgeContextFilter.Str
                            StatementJudgeContextFilter.classifier_statement |}]
                      ++ match StatementJudgeContextFilter.assistant_before before with
                         | Some m => [m]
                         | None => []
                         end
                      ++ [{| StatementJudgeContextFilter.role := "user";
                             StatementJudgeContextFilter.content :=
                               StatementJudgeContextFilter.Str
                                 (String.concat " " texts) |}]))
                DOWNSTREAM]
         end.
Proof.
  intros frame Hs Hu Hb texts. subst frame texts.
  unfold StatementJudgeContextFilter.process_frame, bind, emit. cbv beta iota.
  rewrite Hs. rewrite (judge_users before run Hu Hb).
  destruct (flat_map StatementJudgeContextFilter.said run
              ++ List.concat (rev (map StatementJudgeContextFilter.parts_said run)));
    reflexivity.
Qed.

Lemma statement_judge_user_message_witness :
  let user (c : StatementJudgeContextFilter.Content) :=
    {| StatementJudgeContextFilter.role := "user";
       StatementJudgeContextFilter.content := c |} in
  let text (s : string) :=
    {| StatementJudgeContextFilter.part_type := "text";
       StatementJudgeContextFilter.part_text := s |} in
  let assistant :=
    {| StatementJudgeContextFilter.role := "assistant";
       StatementJudgeContextFilter.content := StatementJudgeContextFilter.Str "Hello." |} in
  let run :=
    [user (StatementJudgeContextFilter.Parts [text "a"%string; text "b"%string]);
     user (StatementJudgeContextFilter.Str "c");
     user (StatementJudgeContextFilter.Parts [text "d"%string])] in
  trace_of (StatementJudgeContextFilter.process_frame (fun _ => false)
              (StatementJudgeContextFilter.OpenAILLMContextFrame ([assistant] ++ run))
              DOWNSTREAM tt)
  = [StatementJudgeContextFilter.super_process_frame
       (StatementJudgeContextFilter.OpenAILLMContextFrame ([assistant] ++ run)) DOWNSTREAM;
     StatementJudgeContextFilter.push_frame
       (StatementJudgeContextFilter.LLMMessagesFrame
          [{| StatementJudgeContextFilter.role := "system";
              StatementJudgeContextFilter.content :=
                StatementJudgeContextFilter.Str
                  StatementJudgeContextFilter.classifier_statement |};
           assistant;
           user (StatementJudgeContextFilter.Str "c d a b")])
       DOWNSTREAM].
Proof.
  intros user text assistant run.
  exact (@statement_judge_user_message (fun _ => false) [assistant] run DOWNSTREAM
           eq_refl eq_refl eq_refl).
Defined.

(** X22.  When the user messages that end the context all have string
    content, the statement judge gets them in the order they were said:
    the user message pushed is their contents joined by single spaces,
    oldest first. *)
Theorem statement_judge_strings_in_order
  (before : list StatementJudgeContextFilter.Message) (first : string) (others : list string) :
  match rev before with
  | m :: _ => StatementJudgeContextFilter.is_user m = false
  | [] => True
  end ->
  let user (s : string) :=
    {| StatementJudgeContextFilter.role := "user";
       StatementJudgeContextFilter.content := StatementJudgeContextFilter.Str s |} in
  StatementJudgeContextFilter.judge (before ++ map user (first :: others))
  = Some ([{| StatementJudgeContextFilter.role := "system";
              StatementJudgeContextFilter.content :=
                StatementJudgeContextFilter.Str
                  StatementJudgeContextFilter.classifier_statement |}]
            ++ match StatementJudgeContextFilter.assistant_before before with
               | Some m => [m]
               | None => []
               end
            ++ [user (String.concat " " (first :: others))]).
Proof.
  intros Hb user.
  assert (Hu : forall l, forallb StatementJudgeContextFilter.is_user (map user l) = true)
    by (induction l; auto).
  assert (Hs : forall l, flat_map StatementJudgeContextFilter.said (map user l) = l)
    by (induction l as [|x l IH]; [reflexivity|cbn in *; rewrite IH; reflexivity]).
  assert (Hp : forall l,
             List.concat (rev (map StatementJudgeContextFilter.parts_said (map user l))) = []).
  { intros l. rewrite map_map, <- map_rev.
    induction (rev l) as [|x xs IH]; [reflexivity|exact IH]. }
  rewrite (judge_users before (map user (first :: others)) (Hu _) Hb).
  rewrite Hs, Hp, app_nil_r. reflexivity.
Qed.

Lemma statement_judge_strings_in_order_witness :
  let user (s : string) :=
    {| StatementJudgeContextFilter.role := "user";
       StatementJudgeContextFilter.content := StatementJudgeContextFilter.Str s |} in
  let assistant :=
    {| StatementJudgeContextFilter.role := "assistant";
       StatementJudgeContextFilter.content :=
         StatementJudgeContextFilter.Str "What is your name?" |} in
  StatementJudgeContextFilter.judge
    ([assistant] ++ map user ["My name"%string; "is"%string; "Ada."%string])
  = Some [{| StatementJudgeContextFilter.role := "system";
             StatementJudgeContextFilter.content :=
               StatementJudgeContextFilter.Str
                 StatementJudgeContextFilter.classifier_statement |};
          assistant;
          user "My name is Ada."%string].
Proof.
  intros user assistant.
  exact (@statement_judge_strings_in_order [assistant] "My name" ["is"; "Ada."]%string
           eq_refl).
Defined.
